(** * Monte Carlo simulator: Die, Game, Analyzer

    A shallow embedding of [Monte_Carlo/MC_Sim.py].  The three classes keep
    their state in pandas data frames; frames are objects that are shared
    by reference, so they live in an explicit object store and the classes
    hold references into it.  Python exceptions are the [Raise] results. *)

From Stdlib Require Import ZArith List Ascii String Floats Lia Permutation.
From stdpp Require Import base list sorting strings pretty.

Local Open Scope Z_scope.
Local Open Scope string_scope.

(** ** Exceptions *)

Inductive exn : Type :=
  | TypeError
  | ValueError
  | IndexError
  | KeyError
  | Unallocated.

Inductive result (A : Type) : Type :=
  | Ok (a : A)
  | Raise (e : exn).
Arguments Ok {A} a.
Arguments Raise {A} e.

Definition rbind {A B : Type} (r : result A) (k : A -> result B) : result B :=
  match r with
  | Ok a => k a
  | Raise e => Raise e
  end.

Notation "'do' x <- c1 ; c2" := (rbind c1 (fun x => c2))
  (at level 60, x name, c1 at next level, right associativity).

(** ** Data frames and series

    A frame is stored by column, as the [pd.DataFrame] constructor receives
    it: row labels ([index], with an optional name), and the columns in
    order, each a label and its cells. *)

Record DataFrame (L C V : Type) : Type := mkDF {
  index_name : option string;
  index : list L;
  columns : list (C * list V)
}.
Arguments mkDF {L C V} _ _ _.
Arguments index_name {L C V} _.
Arguments index {L C V} _.
Arguments columns {L C V} _.

(** A series: labels paired with values, in order. *)
Abbreviation Series L V := (list (L * V)) (only parsing).

Section Frames.
Context {L C V : Type}.

Definition column_names (df : DataFrame L C V) : list C := map fst (columns df).

(** [df.shape] *)
Definition shape (df : DataFrame L C V) : nat * nat :=
  (length (index df), length (columns df)).

(** Every column has one cell per row label. *)
Definition df_wf (df : DataFrame L C V) : Prop :=
  Forall (fun c => length (snd c) = length (index df)) (columns df).

Definition df_wfb (df : DataFrame L C V) : bool :=
  forallb (fun c => Nat.eqb (length (snd c)) (length (index df))) (columns df).

(** [pd.DataFrame(data, index=idx)] for a dict of lists: the lists must
    all have the length of the index. *)
Definition pd_DataFrame (data : list (C * list V)) (idx : list L)
  : result (DataFrame L C V) :=
  let df := mkDF None idx data in
  if df_wfb df then Ok df else Raise ValueError.

(** Row [i]: the [i]-th cell of every column, in column order. *)
Definition row_at (df : DataFrame L C V) (i : nat) : list V :=
  omap (fun c => snd c !! i) (columns df).

Definition df_rows (df : DataFrame L C V) : list (list V) :=
  map (row_at df) (seq 0 (length (index df))).

(** [df.apply(f, axis=1)] for an [f] that returns a scalar or a tuple:
    a series over the row labels.  (pandas treats a frame with an empty
    axis apart; the theorems below are about frames with at least one
    row and one column.) *)
Definition df_apply_rows {R : Type} (f : list V -> R) (df : DataFrame L C V)
  : Series L R :=
  zip (index df) (map f (df_rows df)).

(** [df[name]] *)
Definition df_getitem `{EqDecision C} (df : DataFrame L C V) (name : C)
  : result (list V) :=
  match list_find (fun c => fst c = name) (columns df) with
  | Some (_, c) => Ok (snd c)
  | None => Raise KeyError
  end.

(** Position of a row label. *)
Definition index_pos `{EqDecision L} (df : DataFrame L C V) (l : L) : option nat :=
  fst <$> list_find (fun x => x = l) (index df).

(** [df.loc[l, name]] *)
Definition df_loc `{EqDecision L} `{EqDecision C}
    (df : DataFrame L C V) (l : L) (name : C) : option V :=
  match index_pos df l, df_getitem df name with
  | Some i, Ok cells => cells !! i
  | _, _ => None
  end.

(** [df.loc[l, name] = v] for a label and a column that exist: the one
    cell is overwritten in place. *)
Definition df_set_loc `{EqDecision L} `{EqDecision C}
    (df : DataFrame L C V) (l : L) (name : C) (v : V) : DataFrame L C V :=
  match index_pos df l with
  | Some i =>
      mkDF (index_name df) (index df)
        (map (fun c => if decide (fst c = name) then (fst c, <[i := v]> (snd c)) else c)
             (columns df))
  | None => df
  end.
End Frames.

(** [reset_index()]: the row labels become the first column, named after
    the index (["index"] when it has no name, ["level_0"] when that is
    taken), and the rows are renumbered. *)
Definition reset_index {V : Type} (df : DataFrame string string V)
  : DataFrame nat string (string + V) :=
  let name :=
    match index_name df with
    | Some s => s
    | None => if bool_decide ("index" ∈ column_names df) then "level_0" else "index"
    end in
  mkDF None (seq 0 (length (index df)))
       ((name, map inl (index df))
          :: map (fun c => (fst c, map inr (snd c))) (columns df)).

(** [df.melt(id_vars, var_name, value_name)]: the identifier columns must
    exist; every other column is unpivoted, one column after the other. *)
Definition melt {L V : Type} (df : DataFrame L string V)
    (id_vars : list string) (var_name value_name : string)
  : result (DataFrame nat string (V + string)) :=
  if bool_decide (value_name ∈ column_names df) then Raise ValueError
  else if negb (forallb (fun i => bool_decide (i ∈ column_names df)) id_vars)
  then Raise KeyError
  else
    let ids := filter (fun c => fst c ∈ id_vars) (columns df) in
    let vals := filter (fun c => fst c ∉ id_vars) (columns df) in
    let n := length (index df) in
    let k := length vals in
    Ok (mkDF None (seq 0 (n * k))
          (map (fun c => (fst c, mjoin (replicate k (map inl (snd c))))) ids
             ++ [ (var_name, mjoin (map (fun c => replicate n (inr (fst c))) vals));
                  (value_name, mjoin (map (fun c => map inl (snd c)) vals)) ])).

(** ** The object store *)

Abbreviation WeightFrame := (DataFrame Z string float) (only parsing).
Abbreviation ResultFrame := (DataFrame string string Z) (only parsing).
Abbreviation NarrowFrame := (DataFrame nat string ((string + Z) + string)) (only parsing).

(** [Die]: the face array and a reference to the frame of weights. *)
Record Die : Type := mkDie {
  sides : list Z;
  die : nat
}.

(** [Game]: the dice and a reference to the frame of the last play. *)
Record Game : Type := mkGame {
  dice : list Die;
  results : option nat
}.

(** [Analyzer]: a reference to the game and to the frame fetched at
    construction. *)
Record Analyzer : Type := mkAnalyzer {
  game : nat;
  _results : nat
}.

Record Store : Type := mkStore {
  weight_frames : list WeightFrame;
  result_frames : list ResultFrame;
  games : list Game
}.

Definition empty_store : Store := mkStore [] [] [].

(** A reference the store does not hold has no Python counterpart; it is
    reported as [Unallocated], which is no Python exception. *)
Definition deref {A : Type} (l : list A) (r : nat) : result A :=
  match l !! r with
  | Some a => Ok a
  | None => Raise Unallocated
  end.

Definition new_weight_frame (df : WeightFrame) (st : Store) : nat * Store :=
  (length (weight_frames st),
   mkStore (weight_frames st ++ [df]) (result_frames st) (games st)).

Definition new_result_frame (df : ResultFrame) (st : Store) : nat * Store :=
  (length (result_frames st),
   mkStore (weight_frames st) (result_frames st ++ [df]) (games st)).

Definition new_game (g : Game) (st : Store) : nat * Store :=
  (length (games st),
   mkStore (weight_frames st) (result_frames st) (games st ++ [g])).

Definition put_weight_frame (r : nat) (df : WeightFrame) (st : Store) : Store :=
  mkStore (<[r := df]> (weight_frames st)) (result_frames st) (games st).

Definition put_result_frame (r : nat) (df : ResultFrame) (st : Store) : Store :=
  mkStore (weight_frames st) (<[r := df]> (result_frames st)) (games st).

Definition put_game (r : nat) (g : Game) (st : Store) : Store :=
  mkStore (weight_frames st) (result_frames st) (<[r := g]> (games st)).

(** Arguments whose class the code tests with [isinstance]. *)
Inductive pyobj : Type :=
  | NdArray (xs : list Z)
  | GameObj (g : nat)
  | OtherObj.

(** ** Die *)

(** The loop of the constructor: [weights] grows by one [1] until it is as
    long as the face array ([fuel] bounds the iterations). *)
Fixpoint append_ones (fuel : nat) (weights : list float) (n : nat) : list float :=
  match fuel with
  | O => weights
  | S k =>
      if (length weights <? n)%nat then append_ones k (weights ++ [1%float]) n
      else weights
  end.

(** [pd.DataFrame({'Faces': faces, 'Weight': weights})] followed by
    [set_index('Faces')]: both arrays must have one length; the faces
    become the row labels and the index takes their column's name. *)
Definition faces_weight_frame (faces : list Z) (weights : list float)
  : result WeightFrame :=
  if (length faces =? length weights)%nat
  then Ok (mkDF (Some "Faces") faces [("Weight", weights)])
  else Raise ValueError.

(** [Die.__init__] *)
Definition Die_init (arg : pyobj) (st : Store) : result Die * Store :=
  match arg with
  | NdArray xs =>
      if (length xs =? length (remove_dups xs))%nat then
        let weights := append_ones (length xs) [1%float] (length xs) in
        match faces_weight_frame xs weights with
        | Ok df =>
            let '(r, st') := new_weight_frame df st in
            (Ok (mkDie xs r), st')
        | Raise e => (Raise e, st)
        end
      else (Raise ValueError, st)
  | _ => (Raise TypeError, st)
  end.

(** [Die.show_die]: a copy of the frame, a new object. *)
Definition show_die (d : Die) (st : Store) : result nat * Store :=
  match deref (weight_frames st) (die d) with
  | Ok df =>
      let '(r, st') := new_weight_frame df st in
      (Ok r, st')
  | Raise e => (Raise e, st)
  end.

(** [Series.sum()] of a column of floats. *)
Definition fsum (ws : list float) : float := fold_left PrimFloat.add ws 0%float.

(** The weight the die's frame holds for a face. *)
Definition weight_of (st : Store) (d : Die) (face : Z) : option float :=
  match weight_frames st !! die d with
  | Some df => df_loc df face "Weight"
  | None => None
  end.

Section Ambient.
(** What the module takes from its environment: the generator behind
    [np.random.choice(a, size, p)], and the built-in [float] on the
    values a caller may pass as a weight. *)
Context {rng : Type}
        (np_random_choice : rng -> list Z -> Z -> list float -> result (list Z) * rng).
Context {pyval : Type}
        (py_float : pyval -> result float).

(** [Die.change_weight] *)
Definition change_weight (d : Die) (face : Z) (new_weight : pyval) (st : Store)
  : result unit * Store :=
  if negb (bool_decide (face ∈ sides d)) then (Raise IndexError, st)
  else
    match py_float new_weight with
    | Raise ValueError | Raise TypeError => (Raise TypeError, st)
    | Raise e => (Raise e, st)
    | Ok w =>
        if (w <? 0)%float then (Raise ValueError, st)
        else
          match deref (weight_frames st) (die d) with
          | Ok df => (Ok tt, put_weight_frame (die d) (df_set_loc df face "Weight" w) st)
          | Raise e => (Raise e, st)
          end
    end.

(** [Die.roll_die] *)
Definition roll_die (d : Die) (roll : Z) (st : Store) (g : rng)
  : result (list Z) * rng :=
  match
    (do df <- deref (weight_frames st) (die d);
     do num <- df_getitem df "Weights";
     do den <- df_getitem df "Weights";
     Ok (index df, map (fun w => (w / fsum den)%float) num))
  with
  | Ok (faces, probs) => np_random_choice g faces roll probs
  | Raise e => (Raise e, g)
  end.

(** ** Game *)

(** [Game.__init__] *)
Definition Game_init (ds : list Die) (st : Store) : nat * Store :=
  new_game (mkGame ds None) st.

(** The dict of [play]: every die is rolled [n_rolls] times, in order,
    under the key [die_i]; the first failure ends the comprehension. *)
Fixpoint roll_all (ds : list Die) (i : nat) (n_rolls : Z) (st : Store) (g : rng)
  : result (list (string * list Z)) * rng :=
  match ds with
  | [] => (Ok [], g)
  | d :: ds' =>
      match roll_die d n_rolls st g with
      | (Ok r, g') =>
          match roll_all ds' (S i) n_rolls st g' with
          | (Ok rs, g'') => (Ok (("die_" +:+ pretty i, r) :: rs), g'')
          | (Raise e, g'') => (Raise e, g'')
          end
      | (Raise e, g') => (Raise e, g')
      end
  end.

(** The row labels of [play]: [roll_1] to [roll_n]. *)
Definition roll_labels (n_rolls : Z) : list string :=
  map (fun i => "roll_" +:+ pretty (i + 1)%nat) (seq 0 (Z.to_nat n_rolls)).

(** [Game.play] *)
Definition play (gr : nat) (n_rolls : Z) (st : Store) (g : rng)
  : result unit * Store * rng :=
  match deref (games st) gr with
  | Raise e => (Raise e, st, g)
  | Ok gm =>
      match roll_all (dice gm) 0 n_rolls st g with
      | (Raise e, g') => (Raise e, st, g')
      | (Ok data, g') =>
          match pd_DataFrame data (roll_labels n_rolls) with
          | Raise e => (Raise e, st, g')
          | Ok df =>
              let '(r, st') := new_result_frame df st in
              (Ok tt, put_game gr (mkGame (dice gm) (Some r)) st', g')
          end
      end
  end.
End Ambient.

(** What [show] returns: the stored frame itself, or a new long frame. *)
Inductive table : Type :=
  | Wide (r : nat)
  | Narrow (df : NarrowFrame).

(** [Game.show] *)
Definition show (gr : nat) (form : string) (st : Store) : result table :=
  do gm <- deref (games st) gr;
  match results gm with
  | None => Raise ValueError
  | Some r =>
      if bool_decide (form = "wide") then Ok (Wide r)
      else if bool_decide (form = "narrow") then
        do df <- deref (result_frames st) r;
        do narrow <- melt (reset_index df) ["Roll"] "Die" "Face";
        Ok (Narrow narrow)
      else Raise ValueError
  end.

(** ** Analyzer *)

(** [Analyzer.__init__] *)
Definition Analyzer_init (arg : pyobj) (st : Store) : result Analyzer :=
  match arg with
  | GameObj gr =>
      do t <- show gr "wide" st;
      match t with
      | Wide r => Ok (mkAnalyzer gr r)
      | Narrow _ => Raise Unallocated
      end
  | _ => Raise ValueError
  end.

(** The frame a wide table refers to. *)
Definition wide_frame (t : table) (st : Store) : result ResultFrame :=
  match t with
  | Wide r => deref (result_frames st) r
  | Narrow _ => Raise Unallocated
  end.

(** [df.nunique(axis=1)]: the number of distinct cells of each row. *)
Definition nunique_rows (df : ResultFrame) : Series string nat :=
  df_apply_rows (fun row => length (remove_dups row)) df.

(** [Series.sum()] of a series of booleans. *)
Definition bool_sum {L : Type} (s : Series L bool) : Z :=
  Z.of_nat (length (filter (fun x => snd x = true) s)).

(** [Analyzer.jackpot] *)
Definition jackpot (a : Analyzer) (st : Store) : result Z :=
  do df <- deref (result_frames st) (_results a);
  Ok (bool_sum (map (fun x => (fst x, Nat.eqb (snd x) 1)) (nunique_rows df))).

(** [Series.value_counts()]: the distinct values, in order of first
    occurrence, with their number of occurrences ([tally]), then sorted by
    decreasing count, equal counts keeping their order. *)
Definition tally {V : Type} `{EqDecision V} (vals : list V) : Series V Z :=
  map (fun v => (v, Z.of_nat (length (filter (fun x => x = v) vals))))
      (remove_dups vals).

Fixpoint insert_desc {V : Type} (x : V * Z) (l : Series V Z) : Series V Z :=
  match l with
  | [] => [x]
  | y :: l' => if (snd y <=? snd x)%Z then x :: l else y :: insert_desc x l'
  end.

Definition sort_desc {V : Type} (l : Series V Z) : Series V Z :=
  foldr insert_desc [] l.

Definition value_counts {V : Type} `{EqDecision V} (vals : list V) : Series V Z :=
  sort_desc (tally vals).

(** The count a series of counts holds for a key, if it has the key. *)
Definition series_get {K : Type} `{EqDecision K} (s : Series K Z) (k : K) : option Z :=
  (fun x => snd (snd x)) <$> list_find (fun x => fst x = k) s.

(** Python's [sorted] on integers. *)
Definition sorted (xs : list Z) : list Z := merge_sort Z.le xs.

(** The columns of a frame assembled from one series per row: the labels
    of the series when all rows have the same ones, their sorted union
    otherwise. *)
Definition union_labels (labels : list (list Z)) : list Z :=
  match labels with
  | [] => []
  | k :: ks =>
      if bool_decide (Forall (fun k' => k' = k) ks) then k
      else sorted (remove_dups (mjoin labels))
  end.

(** [df.fillna(v)]; the [astype(int)] that follows it in [face_counts]
    leaves whole numbers as they are. *)
Definition fillna {L C V : Type} (v : V) (df : DataFrame L C (option V))
  : DataFrame L C V :=
  mkDF (index_name df) (index df)
       (map (fun c => (fst c, map (fun x => default v x) (snd c))) (columns df)).

(** [Analyzer.face_counts] *)
Definition face_counts (a : Analyzer) (st : Store) : result (DataFrame string Z Z) :=
  do df <- deref (result_frames st) (_results a);
  let per_row := df_apply_rows value_counts df in
  let faces := union_labels (map (fun s => map fst (snd s)) per_row) in
  Ok (fillna 0
        (mkDF None (index df)
              (map (fun f => (f, map (fun s => series_get (snd s) f) per_row)) faces))).

(** [Analyzer.combo_count] *)
Definition combo_count (a : Analyzer) (st : Store) : result (Series (list Z) Z) :=
  do t <- show (game a) "wide" st;
  do df <- wide_frame t st;
  let combos := df_apply_rows sorted df in
  Ok (value_counts (map snd combos)).

(** [Analyzer.perm_count] *)
Definition perm_count (a : Analyzer) (st : Store) : result (Series (list Z) Z) :=
  do t <- show (game a) "wide" st;
  do df <- wide_frame t st;
  let perms := df_apply_rows (fun row => row) df in
  Ok (value_counts (map snd perms)).

(** [Series.sum()] of a series of counts. *)
Definition count_sum {K : Type} (s : Series K Z) : Z :=
  foldr (fun x acc => snd x + acc) 0 s.

(** ** States the classes build *)

(** The frame of a die as the constructor lays it out: the faces, once
    each, as row labels, and the single column [Weight]. *)
Definition die_ok (st : Store) (d : Die) : Prop :=
  exists ws,
    weight_frames st !! die d = Some (mkDF (Some "Faces") (sides d) [("Weight", ws)])
    /\ length ws = length (sides d)
    /\ NoDup (sides d).

(** The frame the game currently holds as its results. *)
Definition game_results (st : Store) (gr : nat) : result ResultFrame :=
  do gm <- deref (games st) gr;
  match results gm with
  | Some r => deref (result_frames st) r
  | None => Raise ValueError
  end.

(** The cell of a frame at row position [i] in the column labelled [c]. *)
Definition cell_at {L C V : Type} `{EqDecision C}
    (df : DataFrame L C V) (i : nat) (c : C) : option V :=
  match df_getitem df c with
  | Ok cells => cells !! i
  | Raise _ => None
  end.

(** Number of occurrences of a face in a row. *)
Definition occurrences (f : Z) (row : list Z) : Z :=
  Z.of_nat (length (filter (fun x => x = f) row)).

Definition zsum (l : list Z) : Z := foldr Z.add 0 l.

(** A generator for examples: it hands out the rolls of a prepared list,
    one die at a time. *)
Definition canned_choice (g : list (list Z)) (faces : list Z) (size : Z)
    (p : list float) : result (list Z) * list (list Z) :=
  match g with
  | r :: g' => (Ok r, g')
  | [] => (Raise ValueError, [])
  end.

(** The frame of a three-faced die that also carries the column
    [Weights], the one [roll_die] reads. *)
Definition frame_with_Weights : WeightFrame :=
  mkDF (Some "Faces") [1; 2; 3]
       [("Weight", [1%float; 1%float; 1%float]);
        ("Weights", [1%float; 1%float; 1%float])].

Definition two_dice_store : Store :=
  mkStore [frame_with_Weights; frame_with_Weights] [] [].

Definition two_dice : list Die := [mkDie [1; 2; 3] 0; mkDie [1; 2; 3] 1].

(** The store after a game of the two dice was played for three rounds
    with the rolls (1, 2), (2, 1) and (3, 3), and an analyzer of it. *)
Definition played_store : Store :=
  let '(gr, st) := Game_init two_dice two_dice_store in
  let '(_, st', _) := play canned_choice gr 3 st [[1; 2; 3]; [2; 1; 3]] in
  st'.

Definition played_frame : ResultFrame :=
  mkDF None ["roll_1"; "roll_2"; "roll_3"] [("die_0", [1; 2; 3]); ("die_1", [2; 1; 3])].

Definition played_analyzer : Analyzer := mkAnalyzer 0 0.

(** The die of the test suite and the store that holds its frame. *)
Definition test_die : Die := mkDie [1; 2; 3; 4; 5; 6] 0.

Definition test_die_store : Store :=
  snd (Die_init (NdArray [1; 2; 3; 4; 5; 6]) empty_store).

(** A run of [change_weight] calls on one die; a call that raises leaves
    the store to the next call as it found it. *)
Definition change_weights {pyval : Type} (py_float : pyval -> result float)
    (d : Die) (calls : list (Z * pyval)) (st : Store) : Store :=
  foldl (fun s c => snd (change_weight py_float d (fst c) (snd c) s)) st calls.

(** Weights a caller may pass, for examples: a number, a word that is no
    number ([float] raises [ValueError]), and [None] ([TypeError]). *)
Inductive sample_weight : Type :=
  | Number (x : float)
  | Word
  | NoneValue.

Definition sample_float (w : sample_weight) : result float :=
  match w with
  | Number x => Ok x
  | Word => Raise ValueError
  | NoneValue => Raise TypeError
  end.

(** A game of the die of the test suite, as the constructors build it. *)
Definition test_game_store : Store := snd (Game_init [test_die] test_die_store).

(** * Properties *)

(** ** Die *)

Lemma deref_Ok {A : Type} (l : list A) (r : nat) (a : A) :
  deref l r = Ok a <-> l !! r = Some a.
Proof.
  unfold deref. destruct (l !! r); split; intros H; congruence.
Qed.

Lemma append_ones_length (fuel : nat) (ws : list float) (n : nat) :
  (n <= length ws + fuel)%nat -> (length ws <= n)%nat ->
  length (append_ones fuel ws n) = n.
Proof.
  revert ws. induction fuel as [|k IH]; intros ws Hle Hge; simpl.
  - lia.
  - destruct (Nat.ltb_spec (length ws) n) as [Hlt|Hnlt].
    + apply IH; rewrite length_app; simpl; lia.
    + lia.
Qed.

Lemma remove_dups_length_le {A : Type} `{EqDecision A} (l : list A) :
  (length (remove_dups l) <= length l)%nat.
Proof.
  induction l as [|x l IH]; simpl; [lia|].
  destruct (decide_rel elem_of x l); simpl; lia.
Qed.

Lemma remove_dups_length_NoDup {A : Type} `{EqDecision A} (l : list A) :
  length l = length (remove_dups l) -> NoDup l.
Proof.
  induction l as [|x l IH]; simpl; intros Hlen; [constructor|].
  pose proof (remove_dups_length_le l) as Hle.
  destruct (decide_rel elem_of x l) as [Hin|Hnin]; simpl in Hlen; [lia|].
  constructor; [exact Hnin|]. apply IH. lia.
Qed.

Lemma Die_init_ok (arg : pyobj) (st st' : Store) (d : Die) :
  Die_init arg st = (Ok d, st') -> die_ok st' d.
Proof.
  unfold Die_init. destruct arg as [xs| |]; try discriminate.
  destruct (Nat.eqb_spec (length xs) (length (remove_dups xs))) as [Hlen|]; [|discriminate].
  unfold faces_weight_frame.
  destruct (Nat.eqb_spec (length xs) (length (append_ones (length xs) [1%float] (length xs))))
    as [Hw|]; [|discriminate].
  simpl. intros [= <- <-]. unfold die_ok; simpl.
  eexists. split; [apply list_lookup_middle; reflexivity|].
  split; [symmetry; exact Hw|].
  by apply remove_dups_length_NoDup.
Qed.

(** Looking a face up in the index of a frame. *)
Lemma index_pos_Some {C V : Type} (df : DataFrame Z C V) (f : Z) (i : nat) :
  index_pos df f = Some i ->
  index df !! i = Some f /\ forall j, (j < i)%nat -> index df !! j <> Some f.
Proof.
  unfold index_pos. destruct (list_find _ _) as [[k y]|] eqn:Hfind; [|discriminate].
  simpl. intros [= ->]. apply list_find_Some in Hfind as (Hk & -> & Hmin).
  split; [exact Hk|]. intros j Hj Hjf. exact (Hmin j f Hjf Hj eq_refl).
Qed.

Lemma index_pos_elem_of {C V : Type} (df : DataFrame Z C V) (f : Z) :
  f ∈ index df -> exists i, index_pos df f = Some i.
Proof.
  intros Hin. unfold index_pos.
  destruct (list_find_elem_of (fun x => x = f) (index df) f Hin eq_refl) as [[i y] Hfind].
  exists i. by rewrite Hfind.
Qed.

Lemma index_pos_None {C V : Type} (df : DataFrame Z C V) (f : Z) :
  index_pos df f = None -> f ∉ index df.
Proof.
  unfold index_pos. destruct (list_find _ _) as [[k y]|] eqn:Hfind; [discriminate|].
  intros _ Hin. apply list_find_None in Hfind.
  rewrite Forall_forall in Hfind. exact (Hfind f Hin eq_refl).
Qed.

(** Reading the [Weight] column of a die's frame. *)
Lemma df_loc_weight (faces : list Z) (ws : list float) (f : Z) :
  df_loc (mkDF (Some "Faces") faces [("Weight", ws)]) f "Weight"
  = match index_pos (mkDF (Some "Faces") faces [("Weight", ws)] : WeightFrame) f with
    | Some i => ws !! i
    | None => None
    end.
Proof. unfold df_loc. destruct (index_pos _ f); reflexivity. Qed.

Section DieProperties.
Context {rng : Type}
        (np_random_choice : rng -> list Z -> Z -> list float -> result (list Z) * rng).
Context {pyval : Type}
        (py_float : pyval -> result float).

(** A successful [change_weight] keeps the layout of the frame. *)
Lemma change_weight_ok (d : Die) (face : Z) (w : pyval) (st st' : Store) :
  die_ok st d ->
  change_weight py_float d face w st = (Ok tt, st') ->
  die_ok st' d.
Proof.
  intros (ws & Hdf & Hlen & Hnd). unfold change_weight.
  destruct (bool_decide (face ∈ sides d)); simpl; [|discriminate].
  destruct (py_float w) as [x|[]]; try discriminate.
  destruct (x <? 0)%float; [discriminate|].
  unfold deref. rewrite Hdf. intros [= <-].
  unfold die_ok, put_weight_frame; simpl.
  unfold df_set_loc. destruct (index_pos _ face) as [i|]; simpl.
  - exists (<[i := x]> ws). rewrite list_lookup_insert_eq by (eapply lookup_lt_Some; eauto).
    rewrite length_insert. auto.
  - exists ws. rewrite list_lookup_insert_eq by (eapply lookup_lt_Some; eauto). auto.
Qed.

(** [roll_die] asks the frame for a column [Weights]; the frame of a
    die has the column [Weight] only. *)
Lemma roll_die_KeyError (d : Die) (roll : Z) (st : Store) (g : rng) :
  die_ok st d ->
  roll_die np_random_choice d roll st g = (Raise KeyError, g).
Proof.
  intros (ws & Hdf & _). unfold roll_die, deref. rewrite Hdf. reflexivity.
Qed.

End DieProperties.

(** C1: the die of the test suite, as its constructor builds it, cannot
    be rolled: [roll_die] reads a column [Weights] of a frame whose only
    column is [Weight], and ends in [KeyError] whatever the generator. *)
Theorem roll_die_raises_KeyError {rng : Type}
    (np_random_choice : rng -> list Z -> Z -> list float -> result (list Z) * rng)
    (g : rng) :
  exists d st,
    Die_init (NdArray [1; 2; 3; 4; 5; 6]) empty_store = (Ok d, st)
    /\ roll_die np_random_choice d 5 st g = (Raise KeyError, g).
Proof.
  eexists _, _. split; [reflexivity|]. reflexivity.
Qed.

(** ** Game *)

Lemma df_wfb_spec {L C V : Type} (df : DataFrame L C V) :
  df_wfb df = true <-> df_wf df.
Proof.
  unfold df_wfb, df_wf. rewrite forallb_forall, Forall_forall.
  split; intros H c Hc.
  - apply Nat.eqb_eq, H, list_elem_of_In, Hc.
  - apply Nat.eqb_eq, H, list_elem_of_In, Hc.
Qed.

Lemma pd_DataFrame_Ok {L C V : Type} (data : list (C * list V)) (idx : list L)
    (df : DataFrame L C V) :
  pd_DataFrame data idx = Ok df -> df = mkDF None idx data /\ df_wf df.
Proof.
  unfold pd_DataFrame. destruct (df_wfb _) eqn:Hwf; [|discriminate].
  intros [= <-]. split; [reflexivity|]. by apply df_wfb_spec.
Qed.

Lemma roll_labels_length (n_rolls : Z) : length (roll_labels n_rolls) = Z.to_nat n_rolls.
Proof. unfold roll_labels. by rewrite length_map, length_seq. Qed.

Section GameProperties.
Context {rng : Type}
        (np_random_choice : rng -> list Z -> Z -> list float -> result (list Z) * rng).

(** The dict of a play has one entry per die, keyed [die_i]. *)
Lemma roll_all_Ok (ds : list Die) (i : nat) (n_rolls : Z) (st : Store) (g g' : rng)
    (data : list (string * list Z)) :
  roll_all np_random_choice ds i n_rolls st g = (Ok data, g') ->
  map fst data = map (fun k => "die_" +:+ pretty k) (seq i (length ds)).
Proof.
  revert i g g' data. induction ds as [|d ds IH]; intros i g g' data; simpl.
  - by intros [= <- _].
  - destruct (roll_die _ d n_rolls st g) as [[r|e] g1]; [|discriminate].
    destruct (roll_all _ ds (S i) n_rolls st g1) as [[rs|e] g2] eqn:Hrest; [|discriminate].
    intros [= <- _]. simpl. f_equal. eapply IH, Hrest.
Qed.

(** No die that the constructor built can be rolled, so a game that has
    such a die as its first cannot be played. *)
Lemma roll_all_KeyError (d : Die) (ds : list Die) (i : nat) (n_rolls : Z)
    (st : Store) (g : rng) :
  die_ok st d ->
  roll_all np_random_choice (d :: ds) i n_rolls st g = (Raise KeyError, g).
Proof.
  intros Hd. simpl. by rewrite (roll_die_KeyError np_random_choice d n_rolls st g Hd).
Qed.

(** What a successful play leaves behind: a new frame, appended to the
    store, and the game rebound to it; no frame the store held is
    touched. *)
Lemma play_Ok (gr : nat) (n_rolls : Z) (st st' : Store) (g g' : rng) :
  play np_random_choice gr n_rolls st g = (Ok tt, st', g') ->
  exists gm data,
    games st !! gr = Some gm
    /\ roll_all np_random_choice (dice gm) 0 n_rolls st g = (Ok data, g')
    /\ df_wf (mkDF None (roll_labels n_rolls) data)
    /\ st' = mkStore (weight_frames st)
                     (result_frames st ++ [mkDF None (roll_labels n_rolls) data])
                     (<[gr := mkGame (dice gm) (Some (length (result_frames st)))]> (games st)).
Proof.
  unfold play, deref. destruct (games st !! gr) as [gm|] eqn:Hgm; [|discriminate].
  destruct (roll_all _ (dice gm) 0 n_rolls st g) as [[data|e] g1] eqn:Hroll; [|discriminate].
  destruct (pd_DataFrame data (roll_labels n_rolls)) as [df|e] eqn:Hdf; [|discriminate].
  apply pd_DataFrame_Ok in Hdf as [-> Hwf].
  simpl. intros [= <- <-]. exists gm, data. auto.
Qed.

Lemma play_keeps_frames (gr : nat) (n_rolls : Z) (st st' : Store) (g g' : rng)
    (r : nat) (df : ResultFrame) :
  play np_random_choice gr n_rolls st g = (Ok tt, st', g') ->
  result_frames st !! r = Some df ->
  result_frames st' !! r = Some df.
Proof.
  intros Hplay Hr. apply play_Ok in Hplay as (gm & data & _ & _ & _ & ->). simpl.
  by apply lookup_app_l_Some.
Qed.

(** After a play of [n_rolls] rounds the game holds a frame with one row
    per round and one column per die. *)
Lemma play_shape (gr : nat) (n_rolls : Z) (st st' : Store) (g g' : rng) (gm : Game) :
  games st !! gr = Some gm ->
  play np_random_choice gr n_rolls st g = (Ok tt, st', g') ->
  exists r df,
    show gr "wide" st' = Ok (Wide r)
    /\ result_frames st' !! r = Some df
    /\ df_wf df
    /\ shape df = (Z.to_nat n_rolls, length (dice gm)).
Proof.
  intros Hgm Hplay. apply play_Ok in Hplay as (gm' & data & Hgm' & Hroll & Hwf & ->).
  assert (gm' = gm) as -> by congruence.
  exists (length (result_frames st)), (mkDF None (roll_labels n_rolls) data).
  unfold show, deref; simpl.
  rewrite list_lookup_insert_eq by (eapply lookup_lt_Some; eauto). simpl.
  split; [reflexivity|]. split; [by apply list_lookup_middle|]. split; [exact Hwf|].
  unfold shape; simpl. rewrite roll_labels_length. f_equal.
  apply roll_all_Ok in Hroll. apply (f_equal length) in Hroll.
  by rewrite !length_map, length_seq in Hroll.
Qed.
End GameProperties.

(** [show] and the frame it hands out. *)
Lemma show_wide (gr : nat) (gm : Game) (r : nat) (st : Store) :
  games st !! gr = Some gm -> results gm = Some r ->
  show gr "wide" st = Ok (Wide r).
Proof.
  intros Hgm Hr. unfold show, deref. rewrite Hgm. simpl. by rewrite Hr.
Qed.

(** The long form is never produced: [reset_index] calls the column of
    row labels [index], and [melt] is asked for a column [Roll]. *)
Lemma show_narrow_KeyError (gr : nat) (gm : Game) (r : nat) (df : ResultFrame) (st : Store) :
  games st !! gr = Some gm -> results gm = Some r ->
  result_frames st !! r = Some df ->
  index_name df = None ->
  "Roll" ∉ column_names df -> "Face" ∉ column_names df ->
  show gr "narrow" st = Raise KeyError.
Proof.
  intros Hgm Hr Hdf Hname Hroll Hface. unfold show, deref. rewrite Hgm. simpl.
  rewrite Hr. simpl. rewrite Hdf. simpl.
  unfold melt, reset_index. rewrite Hname.
  assert (Hcols : forall name,
             column_names
               (mkDF None (seq 0 (length (index df)))
                  ((name, map inl (index df))
                     :: map (fun c : string * list Z => (fst c, map inr (snd c))) (columns df))
                : DataFrame nat string (string + Z))
             = name :: column_names df).
  { intros name. unfold column_names; simpl. f_equal. rewrite map_map. reflexivity. }
  rewrite !Hcols.
  assert (Hnot : forall s, s ∉ column_names df -> s <> "index" -> s <> "level_0" ->
             s ∉ (if bool_decide ("index" ∈ column_names df) then "level_0" else "index")
                   :: column_names df).
  { intros s Hs H1 H2 Hin. apply elem_of_cons in Hin as [->|Hin]; [|by apply Hs].
    destruct (bool_decide _); congruence. }
  rewrite bool_decide_eq_false_2 by (apply Hnot; [exact Hface|discriminate|discriminate]).
  simpl. rewrite bool_decide_eq_false_2 by (apply Hnot; [exact Hroll|discriminate|discriminate]).
  reflexivity.
Qed.

Section ShowAfterPlay.
Context {rng : Type}
        (np_random_choice : rng -> list Z -> Z -> list float -> result (list Z) * rng).

(** Whatever was rolled, the long form of a play is a [KeyError]. *)
Lemma play_show_narrow (gr : nat) (n_rolls : Z) (st st' : Store) (g g' : rng) :
  play np_random_choice gr n_rolls st g = (Ok tt, st', g') ->
  show gr "narrow" st' = Raise KeyError.
Proof.
  intros Hplay. apply play_Ok in Hplay as (gm & data & Hgm & Hroll & Hwf & ->).
  apply roll_all_Ok in Hroll.
  assert (Hno : forall s, String.get 0 s <> Some "d"%char -> s ∉ map fst data).
  { intros s Hs Hin. rewrite Hroll in Hin.
    apply list_elem_of_fmap in Hin as (k & -> & _). by apply Hs. }
  eapply show_narrow_KeyError with (r := length (result_frames st)); simpl.
  - apply list_lookup_insert_eq. eapply lookup_lt_Some; eauto.
  - reflexivity.
  - by apply list_lookup_middle.
  - reflexivity.
  - apply Hno. discriminate.
  - apply Hno. discriminate.
Qed.
End ShowAfterPlay.

(** C2: a game is played for two rounds and asked for its table in both
    forms.  Without dice (the only games [play] completes on when the
    dice come from the constructor) the wide table has shape (2, 0); with
    the two dice that can be rolled, rolling (1, 2) and (2, 1), it has
    shape (2, 2).  In both games the long form ends in [KeyError]: no
    table with columns Roll, Die and Face is returned. *)
Theorem show_narrow_raises_KeyError {rng : Type}
    (np_random_choice : rng -> list Z -> Z -> list float -> result (list Z) * rng)
    (g : rng) :
  (exists gr st st' df,
     Game_init [] empty_store = (gr, st)
     /\ play np_random_choice gr 2 st g = (Ok tt, st', g)
     /\ game_results st' gr = Ok df
     /\ shape df = (2%nat, 0%nat)
     /\ show gr "narrow" st' = Raise KeyError)
  /\ (exists gr st st' df,
        Game_init two_dice two_dice_store = (gr, st)
        /\ play canned_choice gr 2 st [[1; 2]; [2; 1]] = (Ok tt, st', [])
        /\ game_results st' gr = Ok df
        /\ shape df = (2%nat, 2%nat)
        /\ show gr "narrow" st' = Raise KeyError).
Proof.
  split; eexists _, _, _, _; repeat split; reflexivity.
Qed.

(** [show_die] hands out a new frame with the content of the die's own:
    writing to it leaves the die's frame as it was. *)
Lemma show_die_copy (d : Die) (st : Store) (df : WeightFrame) :
  weight_frames st !! die d = Some df ->
  exists r st',
    show_die d st = (Ok r, st')
    /\ r <> die d
    /\ weight_frames st' !! r = Some df
    /\ forall df', weight_frames (put_weight_frame r df' st') !! die d = Some df.
Proof.
  intros Hdf. unfold show_die, deref. rewrite Hdf. simpl.
  pose proof (lookup_lt_Some _ _ _ Hdf) as Hlt.
  eexists _, _. split; [reflexivity|]. split; [lia|].
  split; [by apply list_lookup_middle|].
  intros df'. simpl. rewrite list_lookup_insert_ne by lia.
  by apply lookup_app_l_Some.
Qed.

(** The wide table [show] returns is the frame the game holds: whatever
    is written to the one is read from the other. *)
Lemma show_wide_shared (gr : nat) (gm : Game) (r : nat) (df df' : ResultFrame) (st : Store) :
  games st !! gr = Some gm -> results gm = Some r ->
  result_frames st !! r = Some df ->
  show gr "wide" st = Ok (Wide r)
  /\ game_results (put_result_frame r df' st) gr = Ok df'.
Proof.
  intros Hgm Hr Hdf. split; [by eapply show_wide|].
  unfold game_results, deref, put_result_frame; simpl. rewrite Hgm; simpl. rewrite Hr.
  rewrite list_lookup_insert_eq by (eapply lookup_lt_Some; eauto). reflexivity.
Qed.

(** C3: the wide table of a played game is no copy.  After a play of two
    rounds, [show('wide')] returns the reference the game holds, and a
    caller that empties the returned table has emptied the game's
    results. *)
Theorem show_wide_is_not_a_copy {rng : Type}
    (np_random_choice : rng -> list Z -> Z -> list float -> result (list Z) * rng)
    (g : rng) :
  exists gr st st' r,
    Game_init [] empty_store = (gr, st)
    /\ play np_random_choice gr 2 st g = (Ok tt, st', g)
    /\ show gr "wide" st' = Ok (Wide r)
    /\ game_results st' gr = Ok (mkDF None ["roll_1"; "roll_2"] [])
    /\ game_results (put_result_frame r (mkDF None [] []) st') gr = Ok (mkDF None [] []).
Proof.
  eexists _, _, _, _. repeat split; reflexivity.
Qed.

(** C9: [show] on a game that was never played is a [ValueError] for
    every form, and on a played game for every form other than wide and
    narrow. *)
Theorem show_ValueError (gr : nat) (gm : Game) (form : string) (st : Store) :
  games st !! gr = Some gm ->
  (results gm = None -> show gr form st = Raise ValueError)
  /\ (is_Some (results gm) -> form <> "wide" -> form <> "narrow" ->
      show gr form st = Raise ValueError).
Proof.
  intros Hgm. unfold show, deref. rewrite Hgm. simpl. split.
  - intros ->. reflexivity.
  - intros [r ->] Hwide Hnarrow.
    rewrite bool_decide_eq_false_2 by exact Hwide.
    rewrite bool_decide_eq_false_2 by exact Hnarrow. reflexivity.
Qed.

(** A new game has no results. *)
Lemma Game_init_unplayed (ds : list Die) (st st' : Store) (gr : nat) :
  Game_init ds st = (gr, st') ->
  games st' !! gr = Some (mkGame ds None).
Proof.
  unfold Game_init, new_game. intros [= <- <-]. simpl. by apply list_lookup_middle.
Qed.

(** C10: an analyzer is not built on a game that was never played: the
    constructor fetches the wide table at once, and that is a
    [ValueError]. *)
Theorem Analyzer_init_unplayed (gr : nat) (gm : Game) (st : Store) :
  games st !! gr = Some gm ->
  results gm = None ->
  Analyzer_init (GameObj gr) st = Raise ValueError.
Proof.
  intros Hgm Hres. unfold Analyzer_init, show, deref.
  rewrite Hgm. simpl. rewrite Hres. reflexivity.
Qed.

(** ** Counting *)

Section Counting.
Context {V : Type} `{EqDecision V}.

Lemma insert_desc_Permutation (x : V * Z) (l : list (V * Z)) :
  insert_desc x l ≡ₚ x :: l.
Proof.
  induction l as [|y l IH]; simpl; [reflexivity|].
  destruct (snd y <=? snd x)%Z; [reflexivity|].
  rewrite IH. apply Permutation_swap.
Qed.

Lemma sort_desc_Permutation (l : list (V * Z)) : sort_desc l ≡ₚ l.
Proof.
  induction l as [|x l IH]; simpl; [reflexivity|].
  rewrite insert_desc_Permutation. by rewrite IH.
Qed.

Lemma count_sum_Permutation (s1 s2 : list (V * Z)) :
  s1 ≡ₚ s2 -> count_sum s1 = count_sum s2.
Proof.
  induction 1 as [|x l1 l2 _ IH|x y l|l1 l2 l3 _ IH1 _ IH2]; simpl; lia.
Qed.

Lemma sum_list_with_add (f g : V -> nat) (ks : list V) :
  sum_list_with (fun k => f k + g k)%nat ks
  = (sum_list_with f ks + sum_list_with g ks)%nat.
Proof. induction ks as [|k ks IH]; simpl; lia. Qed.

Lemma sum_list_with_zero (f : V -> nat) (ks : list V) :
  (forall k, k ∈ ks -> f k = 0%nat) -> sum_list_with f ks = 0%nat.
Proof.
  induction ks as [|k ks IH]; intros Hf; simpl; [reflexivity|].
  rewrite Hf by left. rewrite IH; [reflexivity|].
  intros k' Hk'. apply Hf. by right.
Qed.

(** Among distinct keys exactly one is equal to a given member. *)
Lemma sum_indicator (x : V) (ks : list V) :
  NoDup ks -> x ∈ ks ->
  sum_list_with (fun k => if decide (x = k) then 1 else 0)%nat ks = 1%nat.
Proof.
  induction 1 as [|k ks Hk Hnd IH]; intros Hx; [by apply elem_of_nil in Hx|].
  simpl. destruct (decide (x = k)) as [->|Hne].
  - rewrite sum_list_with_zero; [reflexivity|].
    intros k' Hk'. destruct (decide (k = k')) as [->|]; [done|reflexivity].
  - apply elem_of_cons in Hx as [Hx|Hx]; [done|]. by rewrite IH.
Qed.

(** The occurrences of distinct keys that cover a list add up to its
    length. *)
Lemma sum_occurrences (ks vals : list V) :
  NoDup ks -> (forall x, x ∈ vals -> x ∈ ks) ->
  sum_list_with (fun k => length (filter (fun x => x = k) vals)) ks = length vals.
Proof.
  intros Hnd. induction vals as [|x vals IH]; intros Hcover.
  - apply sum_list_with_zero. reflexivity.
  - transitivity
      (sum_list_with
         (fun k => (if decide (x = k) then 1 else 0)
                   + length (filter (fun y => y = k) vals))%nat ks).
    + clear IH Hcover Hnd. induction ks as [|k ks IHk]; simpl; [reflexivity|].
      rewrite IHk. f_equal. rewrite filter_cons.
      destruct (decide (x = k)); reflexivity.
    + rewrite sum_list_with_add, sum_indicator, IH; simpl; auto.
      * intros y Hy. apply Hcover. by right.
      * apply Hcover. by left.
Qed.

Lemma count_sum_of_nat (f : V -> nat) (ks : list V) :
  count_sum (map (fun k => (k, Z.of_nat (f k))) ks) = Z.of_nat (sum_list_with f ks).
Proof. induction ks as [|k ks IH]; simpl; [reflexivity|]. rewrite IH. lia. Qed.

Lemma tally_keys (vals : list V) : map fst (tally vals) = remove_dups vals.
Proof. unfold tally. rewrite map_map. simpl. apply map_id. Qed.

Lemma value_counts_Permutation (vals : list V) : value_counts vals ≡ₚ tally vals.
Proof. apply sort_desc_Permutation. Qed.

(** The counts of [value_counts] add up to the number of values. *)
Lemma value_counts_sum (vals : list V) :
  count_sum (value_counts vals) = Z.of_nat (length vals).
Proof.
  rewrite (count_sum_Permutation _ _ (value_counts_Permutation vals)).
  unfold tally. rewrite count_sum_of_nat. f_equal.
  apply sum_occurrences; [apply NoDup_remove_dups|].
  intros x Hx. by apply elem_of_remove_dups.
Qed.

Lemma value_counts_keys (vals : list V) :
  map fst (value_counts vals) ≡ₚ remove_dups vals.
Proof. rewrite <- tally_keys. apply fmap_Permutation, value_counts_Permutation. Qed.

Lemma value_counts_NoDup (vals : list V) : NoDup (map fst (value_counts vals)).
Proof. rewrite value_counts_keys. apply NoDup_remove_dups. Qed.

Lemma value_counts_key (vals : list V) (v : V) :
  v ∈ map fst (value_counts vals) <-> v ∈ vals.
Proof. rewrite value_counts_keys. apply elem_of_remove_dups. Qed.

(** In a series with distinct keys, a key finds its own entry. *)
Lemma series_get_Some (s : list (V * Z)) (k : V) (c : Z) :
  NoDup (map fst s) -> (k, c) ∈ s -> series_get s k = Some c.
Proof.
  unfold series_get. induction s as [|[k' c'] s IH]; intros Hnd Hin.
  - by apply elem_of_nil in Hin.
  - simpl in *. apply NoDup_cons in Hnd as [Hk' Hnd].
    destruct (decide (k' = k)) as [->|Hne]; simpl.
    + apply elem_of_cons in Hin as [[= <-]|Hin]; [reflexivity|].
      exfalso. apply Hk'. apply list_elem_of_fmap. by exists (k, c).
    + apply elem_of_cons in Hin as [[= <- <-]|Hin]; [done|].
      specialize (IH Hnd Hin).
      destruct (list_find (fun x => fst x = k) s) as [[i y]|]; simpl in *; congruence.
Qed.

Lemma series_get_None (s : list (V * Z)) (k : V) :
  k ∉ map fst s -> series_get s k = None.
Proof.
  unfold series_get. induction s as [|[k' c'] s IH]; intros Hk; [reflexivity|].
  simpl in *. apply not_elem_of_cons in Hk as [Hne Hk].
  destruct (decide (k' = k)) as [->|_]; [done|].
  specialize (IH Hk). by destruct (list_find _ s) as [[i y]|].
Qed.

(** [value_counts] holds for every value its number of occurrences. *)
Lemma value_counts_get (vals : list V) (v : V) :
  v ∈ vals ->
  series_get (value_counts vals) v
  = Some (Z.of_nat (length (filter (fun x => x = v) vals))).
Proof.
  intros Hv. apply series_get_Some; [apply value_counts_NoDup|].
  rewrite value_counts_Permutation. unfold tally.
  apply list_elem_of_fmap. exists v. split; [reflexivity|].
  by apply elem_of_remove_dups.
Qed.

Lemma value_counts_get_absent (vals : list V) (v : V) :
  v ∉ vals -> series_get (value_counts vals) v = None.
Proof. intros Hv. apply series_get_None. by rewrite value_counts_key. Qed.
End Counting.

(** ** Rows of a frame *)

Section Rows.
Context {L C V : Type}.

Lemma df_rows_length (df : DataFrame L C V) :
  length (df_rows df) = length (index df).
Proof. unfold df_rows. by rewrite length_map, length_seq. Qed.

Lemma df_rows_lookup (df : DataFrame L C V) (i : nat) :
  (i < length (index df))%nat -> df_rows df !! i = Some (row_at df i).
Proof.
  intros Hi. unfold df_rows.
  change (map (row_at df) (seq 0 (length (index df))))
    with (row_at df <$> seq 0 (length (index df))).
  rewrite list_lookup_fmap, lookup_seq_lt by exact Hi. reflexivity.
Qed.

Lemma row_at_length (df : DataFrame L C V) (i : nat) :
  df_wf df -> (i < length (index df))%nat ->
  length (row_at df i) = length (columns df).
Proof.
  unfold df_wf, row_at. intros Hwf Hi.
  induction Hwf as [|c cs Hc _ IH]; simpl; [reflexivity|].
  destruct (snd c !! i) as [v|] eqn:Hv; simpl.
  - f_equal. exact IH.
  - apply lookup_ge_None in Hv. lia.
Qed.

(** The values of a row-wise [apply]: one per row, in row order. *)
Lemma df_apply_rows_values {R : Type} (f : list V -> R) (df : DataFrame L C V) :
  map snd (df_apply_rows f df) = map f (df_rows df).
Proof.
  unfold df_apply_rows. apply snd_zip.
  rewrite length_map, df_rows_length. lia.
Qed.

Lemma df_apply_rows_labels {R : Type} (f : list V -> R) (df : DataFrame L C V) :
  map fst (df_apply_rows f df) = index df.
Proof.
  unfold df_apply_rows. apply fst_zip.
  rewrite length_map, df_rows_length. lia.
Qed.
End Rows.

(** ** Analyzer *)

Lemma bool_sum_map {L A : Type} (g : A -> bool) (s : list (L * A)) :
  bool_sum (map (fun x => (fst x, g (snd x))) s)
  = Z.of_nat (length (filter (fun y => g y = true) (map snd s))).
Proof.
  unfold bool_sum. f_equal.
  induction s as [|[l y] s IH]; [reflexivity|].
  simpl. rewrite !filter_cons. simpl.
  destruct (decide (g y = true)); simpl; by rewrite IH.
Qed.

(** One distinct value: the row is not empty and all its cells are equal. *)
Lemma single_valued_row (row : list Z) :
  length (remove_dups row) = 1%nat <-> exists x, row <> [] /\ Forall (fun y => y = x) row.
Proof.
  split.
  - intros Hlen. destruct (remove_dups row) as [|x [|? ?]] eqn:Hrd; try discriminate.
    exists x. split.
    + intros ->. discriminate.
    + apply Forall_forall. intros y Hy.
      apply elem_of_remove_dups in Hy. rewrite Hrd in Hy.
      by apply list_elem_of_singleton in Hy.
  - intros (x & Hne & Hall).
    assert (Hperm : remove_dups row ≡ₚ [x]).
    { apply NoDup_Permutation; [apply NoDup_remove_dups|apply NoDup_singleton|].
      intros y. rewrite elem_of_remove_dups, list_elem_of_singleton.
      rewrite Forall_forall in Hall. split; [apply Hall|].
      intros ->. destruct row as [|z row]; [done|].
      rewrite (Hall z) by left. left. }
    by rewrite Hperm.
Qed.

(** C6: [jackpot] is the number of rows of the analyzer's table whose
    count of distinct values is 1; it is an integer between 0 and the
    number of rolls. *)
Theorem jackpot_counts_single_valued_rows (a : Analyzer) (st : Store) (df : ResultFrame) :
  result_frames st !! _results a = Some df ->
  exists j,
    jackpot a st = Ok j
    /\ j = Z.of_nat (length (filter (fun row => length (remove_dups row) = 1%nat) (df_rows df)))
    /\ 0 <= j <= Z.of_nat (length (index df)).
Proof.
  intros Hdf. unfold jackpot, deref. rewrite Hdf. simpl.
  eexists. split; [reflexivity|].
  rewrite (bool_sum_map (fun k => Nat.eqb k 1)).
  unfold nunique_rows. rewrite df_apply_rows_values.
  assert (Hcount :
    length (filter (fun y => Nat.eqb y 1 = true)
              (map (fun row : list Z => length (remove_dups row)) (df_rows df)))
    = length (filter (fun row => length (remove_dups row) = 1%nat) (df_rows df))).
  { induction (df_rows df) as [|row rows IH]; [reflexivity|].
    simpl. rewrite !filter_cons.
    destruct (decide (length (remove_dups row) = 1%nat)) as [Heq|Hne].
    - rewrite decide_True by (by apply Nat.eqb_eq). simpl. by rewrite IH.
    - rewrite decide_False by (by rewrite Nat.eqb_eq). exact IH. }
  rewrite Hcount. split; [reflexivity|].
  split; [lia|].
  apply inj_le. rewrite <- (df_rows_length df). apply length_filter.
Qed.

(** [sorted] gives the same tuple exactly for the rows that are
    rearrangements of each other. *)
Lemma sorted_Permutation (row : list Z) : sorted row ≡ₚ row.
Proof. apply merge_sort_Permutation. Qed.

Lemma sorted_eq_iff (r1 r2 : list Z) : sorted r1 = sorted r2 <-> r1 ≡ₚ r2.
Proof.
  split.
  - intros Heq. rewrite <- (sorted_Permutation r1), Heq. apply sorted_Permutation.
  - intros Hperm. unfold sorted.
    apply (Sorted_unique Z.le); [apply Sorted_merge_sort; apply _ ..|].
    by rewrite !merge_sort_Permutation.
Qed.

Lemma filter_map_length {A B : Type} `{EqDecision B} (f : A -> B) (b : B) (l : list A) :
  length (filter (fun y => y = b) (map f l)) = length (filter (fun x => f x = b) l).
Proof.
  induction l as [|x l IH]; [reflexivity|].
  simpl. rewrite !filter_cons. destruct (decide (f x = b)); simpl; by rewrite IH.
Qed.

Lemma game_results_show (st : Store) (gr : nat) (df : ResultFrame) :
  game_results st gr = Ok df ->
  exists r, show gr "wide" st = Ok (Wide r) /\ wide_frame (Wide r) st = Ok df.
Proof.
  unfold game_results, show, wide_frame.
  destruct (deref (games st) gr) as [gm|]; simpl; [|discriminate].
  destruct (results gm) as [r|]; [|discriminate].
  intros Hdf. exists r. auto.
Qed.

(** C5: the counts of [combo_count] and of [perm_count] each add up to
    the number of rolls.  [combo_count] keys a roll by the sorted tuple of
    its faces and holds for it the number of rolls that are
    rearrangements of it; [perm_count] keys a roll by its faces in die
    order and holds the number of rolls equal to it.  So two rolls that
    are rearrangements of each other share one key of [combo_count]
    and, when they differ, have two keys in [perm_count]. *)
Theorem combo_and_perm_counts
    (a : Analyzer) (st : Store) (df : ResultFrame) (n_rolls d : nat) :
  game_results st (game a) = Ok df ->
  shape df = (n_rolls, d) ->
  (0 < n_rolls)%nat -> (0 < d)%nat ->
  exists combos perms,
    combo_count a st = Ok combos
    /\ perm_count a st = Ok perms
    /\ count_sum combos = Z.of_nat n_rolls
    /\ count_sum perms = Z.of_nat n_rolls
    /\ NoDup (map fst combos) /\ NoDup (map fst perms)
    /\ (forall row, row ∈ df_rows df ->
          series_get combos (sorted row)
          = Some (Z.of_nat (length (filter (fun r => r ≡ₚ row) (df_rows df))))
          /\ series_get perms row
             = Some (Z.of_nat (length (filter (fun r => r = row) (df_rows df)))))
    /\ (forall r1 r2, r1 ≡ₚ r2 -> sorted r1 = sorted r2).
Proof.
  intros Hres Hshape _ _. injection Hshape as Hn _.
  apply game_results_show in Hres as (r & Hshow & Hframe).
  unfold combo_count, perm_count. rewrite Hshow. simpl. simpl in Hframe.
  rewrite Hframe. simpl. rewrite !df_apply_rows_values.
  eexists _, _. split; [reflexivity|]. split; [reflexivity|].
  rewrite !value_counts_sum, !length_map, df_rows_length, Hn.
  split; [reflexivity|]. split; [reflexivity|].
  split; [apply value_counts_NoDup|]. split; [apply value_counts_NoDup|].
  split; [|intros r1 r2; apply sorted_eq_iff].
  intros row Hrow. split.
  - rewrite value_counts_get by (apply list_elem_of_fmap; eauto).
    rewrite filter_map_length. do 3 f_equal.
    apply list_filter_iff. intros r'. apply sorted_eq_iff.
  - rewrite map_id. by rewrite value_counts_get.
Qed.

(** The columns of the assembled frame: every label of every row's
    series, once. *)
Lemma union_labels_spec (labels : list (list Z)) :
  Forall NoDup labels ->
  NoDup (union_labels labels)
  /\ forall f, f ∈ union_labels labels <-> exists k, k ∈ labels /\ f ∈ k.
Proof.
  intros Hnd.
  assert (Hsorted : NoDup (sorted (remove_dups (mjoin labels)))
            /\ forall f, f ∈ sorted (remove_dups (mjoin labels))
                         <-> exists k, k ∈ labels /\ f ∈ k).
  { unfold sorted. split.
    - rewrite merge_sort_Permutation. apply NoDup_remove_dups.
    - intros f. rewrite merge_sort_Permutation, elem_of_remove_dups, list_elem_of_join.
      split; intros (k & H1 & H2); exists k; auto. }
  destruct labels as [|k ks]; [exact Hsorted|].
  unfold union_labels. case_bool_decide as Hall; [|exact Hsorted].
  split; [by apply Forall_cons in Hnd as [? _]|].
  intros f. split.
  - intros Hf. exists k. split; [left|exact Hf].
  - intros (k' & Hk' & Hf). apply elem_of_cons in Hk' as [->|Hk']; [exact Hf|].
    rewrite Forall_forall in Hall. by rewrite <- (Hall k' Hk').
Qed.

Lemma occurrences_absent (row : list Z) (f : Z) :
  f ∉ row -> length (filter (fun x => x = f) row) = 0%nat.
Proof.
  induction row as [|x row IH]; intros Hf; [reflexivity|].
  apply not_elem_of_cons in Hf as [Hne Hf].
  rewrite filter_cons, decide_False by congruence. by apply IH.
Qed.

Lemma occurrences_default (row : list Z) (f : Z) :
  default 0 (series_get (value_counts row) f) = occurrences f row.
Proof.
  unfold occurrences. destruct (decide (f ∈ row)) as [Hin|Hnin].
  - by rewrite value_counts_get.
  - rewrite value_counts_get_absent by exact Hnin.
    by rewrite occurrences_absent.
Qed.

Section Assembled.
Context {L : Type} (idx : list L) (g : Z -> list Z).

(** A frame with one column [g f] per face [f]. *)
Lemma assembled_getitem (faces : list Z) (f : Z) :
  f ∈ faces ->
  df_getitem (mkDF None idx (map (fun f' => (f', g f')) faces)) f = Ok (g f).
Proof.
  unfold df_getitem; simpl. induction faces as [|f' faces IH]; intros Hf.
  - by apply elem_of_nil in Hf.
  - simpl. destruct (decide (f' = f)) as [->|Hne]; [reflexivity|].
    apply elem_of_cons in Hf as [->|Hf]; [done|].
    specialize (IH Hf).
    destruct (list_find _ _) as [[i [f'' cells]]|]; simpl in *; [exact IH|discriminate].
Qed.

Lemma assembled_row (faces : list Z) (i : nat) (h : Z -> Z) :
  (forall f, g f !! i = Some (h f)) ->
  row_at (mkDF None idx (map (fun f' => (f', g f')) faces)) i = map h faces.
Proof.
  intros Hg. unfold row_at; simpl.
  induction faces as [|f faces IH]; [reflexivity|].
  simpl. rewrite Hg. simpl. f_equal. exact IH.
Qed.
End Assembled.

Lemma zsum_occurrences (faces row : list Z) :
  NoDup faces -> (forall x, x ∈ row -> x ∈ faces) ->
  zsum (map (fun f => occurrences f row) faces) = Z.of_nat (length row).
Proof.
  intros Hnd Hcover. rewrite <- (sum_occurrences faces row Hnd Hcover).
  unfold occurrences. clear. induction faces as [|f faces IH]; [reflexivity|].
  simpl. rewrite IH. lia.
Qed.

(** What [face_counts] returns, cell by cell. *)
Lemma face_counts_eq (a : Analyzer) (st : Store) (df : ResultFrame) :
  result_frames st !! _results a = Some df ->
  face_counts a st
  = Ok (mkDF None (index df)
          (map (fun f => (f, map (occurrences f) (df_rows df)))
               (union_labels (map (fun row => map fst (value_counts row)) (df_rows df))))).
Proof.
  intros Hdf. unfold face_counts, deref. rewrite Hdf. simpl.
  unfold fillna. simpl. do 2 f_equal.
  assert (Hlabels :
    map (fun s : string * list (Z * Z) => map fst (snd s)) (df_apply_rows value_counts df)
    = map (fun row => map fst (value_counts row)) (df_rows df)).
  { rewrite <- (map_map snd (map fst)), df_apply_rows_values, map_map. reflexivity. }
  rewrite Hlabels, map_map. apply map_ext. intros f. simpl. f_equal.
  rewrite map_map.
  rewrite <- (map_map snd (fun s => default 0 (series_get s f))).
  rewrite df_apply_rows_values, map_map.
  apply map_ext. intros row. apply occurrences_default.
Qed.

(** C7: [face_counts] returns a table over the rolls of the analyzer's
    table, with one column for every face seen in some roll and no
    other; the cell of a roll and a face is the number of dice that
    showed the face on the roll, 0 when none did; every row of the table
    adds up to the number of dice. *)
Theorem face_counts_table
    (a : Analyzer) (st : Store) (df : ResultFrame) (n_rolls d : nat) :
  result_frames st !! _results a = Some df ->
  df_wf df ->
  shape df = (n_rolls, d) ->
  (0 < n_rolls)%nat -> (0 < d)%nat ->
  exists fc,
    face_counts a st = Ok fc
    /\ index fc = index df
    /\ NoDup (column_names fc)
    /\ (forall f, f ∈ column_names fc <-> exists row, row ∈ df_rows df /\ f ∈ row)
    /\ (forall i row f,
          df_rows df !! i = Some row -> f ∈ column_names fc ->
          cell_at fc i f = Some (occurrences f row))
    /\ (forall i, (i < n_rolls)%nat -> zsum (row_at fc i) = Z.of_nat d).
Proof.
  intros Hdf Hwf Hshape _ _. injection Hshape as Hn Hd.
  rewrite (face_counts_eq a st df Hdf).
  set (faces := union_labels (map (fun row => map fst (value_counts row)) (df_rows df))).
  destruct (union_labels_spec (map (fun row => map fst (value_counts row)) (df_rows df)))
    as [Hnd Hmem].
  { apply Forall_forall. intros k Hk.
    apply list_elem_of_fmap in Hk as (row & -> & _). apply value_counts_NoDup. }
  fold faces in Hnd, Hmem.
  assert (Hfaces : forall f, f ∈ faces <-> exists row, row ∈ df_rows df /\ f ∈ row).
  { intros f. rewrite Hmem. split.
    - intros (k & Hk & Hf). apply list_elem_of_fmap in Hk as (row & -> & Hrow).
      exists row. split; [exact Hrow|]. by apply value_counts_key.
    - intros (row & Hrow & Hf). exists (map fst (value_counts row)).
      split; [|by apply value_counts_key].
      apply list_elem_of_fmap. by exists row. }
  assert (Hcols : column_names
                    (mkDF None (index df)
                       (map (fun f => (f, map (occurrences f) (df_rows df))) faces)
                     : DataFrame string Z Z) = faces).
  { unfold column_names; simpl. rewrite map_map. apply map_id. }
  eexists. split; [reflexivity|]. split; [reflexivity|].
  rewrite Hcols. split; [exact Hnd|]. split; [exact Hfaces|]. split.
  - intros i row f Hrow Hf. unfold cell_at.
    rewrite (assembled_getitem (index df) (fun f => map (occurrences f) (df_rows df))) by exact Hf.
    change (map (occurrences f) (df_rows df)) with (occurrences f <$> df_rows df).
    by rewrite list_lookup_fmap, Hrow.
  - intros i Hi.
    rewrite (assembled_row (index df) (fun f => map (occurrences f) (df_rows df)) faces i
               (fun f => occurrences f (row_at df i))).
    + rewrite zsum_occurrences.
      * rewrite row_at_length by (exact Hwf || lia). by rewrite Hd.
      * exact Hnd.
      * intros x Hx. apply Hfaces. exists (row_at df i). split; [|exact Hx].
        apply list_elem_of_lookup. exists i. apply df_rows_lookup. lia.
    + intros f.
      change (map (occurrences f) (df_rows df)) with (occurrences f <$> df_rows df).
      rewrite list_lookup_fmap, df_rows_lookup by lia. reflexivity.
Qed.

(** ** The analyzer and a second play *)

Lemma combo_count_reads_game (a : Analyzer) (st : Store) (df : ResultFrame) :
  game_results st (game a) = Ok df ->
  combo_count a st = Ok (value_counts (map sorted (df_rows df)))
  /\ perm_count a st = Ok (value_counts (df_rows df)).
Proof.
  intros Hres. apply game_results_show in Hres as (r & Hshow & Hframe).
  unfold combo_count, perm_count. rewrite Hshow. simpl. simpl in Hframe.
  rewrite Hframe. simpl. rewrite !df_apply_rows_values. by rewrite map_id.
Qed.

Section Replay.
Context {rng : Type}
        (np_random_choice : rng -> list Z -> Z -> list float -> result (list Z) * rng).

(** X20: [jackpot] and [face_counts] read the frame fetched at
    construction, which a later play leaves as it was: they return after
    the play what they returned before it. *)
Lemma jackpot_after_play (a : Analyzer) (gr : nat) (n_rolls : Z)
    (st st' : Store) (g g' : rng) :
  is_Some (result_frames st !! _results a) ->
  play np_random_choice gr n_rolls st g = (Ok tt, st', g') ->
  jackpot a st' = jackpot a st /\ face_counts a st' = face_counts a st.
Proof.
  intros [df Hdf] Hplay.
  pose proof (play_keeps_frames np_random_choice _ _ _ _ _ _ _ _ Hplay Hdf) as Hdf'.
  unfold jackpot, face_counts, deref. by rewrite Hdf, Hdf'.
Qed.

(** [combo_count] and [perm_count] ask the game for its table, and after
    a play that is the new one. *)
Lemma combo_count_after_play (a : Analyzer) (n_rolls : Z)
    (st st' : Store) (g g' : rng) :
  play np_random_choice (game a) n_rolls st g = (Ok tt, st', g') ->
  exists df,
    game_results st' (game a) = Ok df
    /\ result_frames st !! length (result_frames st) = None
    /\ result_frames st' !! length (result_frames st) = Some df
    /\ combo_count a st' = Ok (value_counts (map sorted (df_rows df)))
    /\ perm_count a st' = Ok (value_counts (df_rows df)).
Proof.
  intros Hplay. apply play_Ok in Hplay as (gm & data & Hgm & _ & _ & ->).
  exists (mkDF None (roll_labels n_rolls) data).
  assert (Hres : game_results
                   (mkStore (weight_frames st)
                      (result_frames st ++ [mkDF None (roll_labels n_rolls) data])
                      (<[game a := mkGame (dice gm) (Some (length (result_frames st)))]> (games st)))
                   (game a)
                 = Ok (mkDF None (roll_labels n_rolls) data)).
  { unfold game_results, deref; simpl.
    rewrite list_lookup_insert_eq by (eapply lookup_lt_Some; eauto). simpl.
    by rewrite list_lookup_middle. }
  split; [exact Hres|]. split; [by apply lookup_ge_None|].
  split; [by apply list_lookup_middle|].
  by apply combo_count_reads_game.
Qed.
End Replay.

(** C4: a game of two dice is played for two rounds, rolling (1, 2) and
    (2, 1); an analyzer is built; the game is played again for one round,
    rolling (3, 3).  [jackpot] and [face_counts] answer as before the
    second play, [combo_count] and [perm_count] do not: they report the
    second play. *)
Theorem combo_count_follows_replay :
  exists gr st1 st2 g2 a st3 g3,
    Game_init two_dice two_dice_store = (gr, st1)
    /\ play canned_choice gr 2 st1 [[1; 2]; [2; 1]; [3]; [3]] = (Ok tt, st2, g2)
    /\ Analyzer_init (GameObj gr) st2 = Ok a
    /\ play canned_choice gr 1 st2 g2 = (Ok tt, st3, g3)
    /\ jackpot a st2 = Ok 0 /\ jackpot a st3 = Ok 0
    /\ face_counts a st3 = face_counts a st2
    /\ combo_count a st2 = Ok [([1; 2], 2)]
    /\ combo_count a st3 = Ok [([3; 3], 1)]
    /\ perm_count a st2 = Ok [([1; 2], 1); ([2; 1], 1)]
    /\ perm_count a st3 = Ok [([3; 3], 1)].
Proof.
  eexists _, _, _, _, _, _, _. repeat split; reflexivity.
Qed.

(** ** The theorems at work on the examples *)


Lemma show_ValueError_witness :
  (results (mkGame [] None) = None ->
   show 0 "long" (snd (Game_init [] empty_store)) = Raise ValueError)
  /\ (is_Some (results (mkGame [] None)) -> "long" <> "wide" -> "long" <> "narrow" ->
      show 0 "long" (snd (Game_init [] empty_store)) = Raise ValueError).
Proof.
  apply (show_ValueError 0 (mkGame [] None) "long" (snd (Game_init [] empty_store))).
  reflexivity.
Defined.

Lemma Analyzer_init_unplayed_witness :
  Analyzer_init (GameObj 0) (snd (Game_init two_dice two_dice_store)) = Raise ValueError.
Proof.
  apply (Analyzer_init_unplayed 0 (mkGame two_dice None)); reflexivity.
Defined.

Lemma jackpot_counts_single_valued_rows_witness :
  exists j,
    jackpot played_analyzer played_store = Ok j
    /\ j = Z.of_nat (length (filter (fun row => length (remove_dups row) = 1%nat)
                               (df_rows played_frame)))
    /\ 0 <= j <= Z.of_nat (length (index played_frame)).
Proof.
  apply (jackpot_counts_single_valued_rows played_analyzer played_store played_frame).
  reflexivity.
Defined.

Lemma face_counts_table_witness :
  exists fc,
    face_counts played_analyzer played_store = Ok fc
    /\ index fc = index played_frame
    /\ NoDup (column_names fc)
    /\ (forall f, f ∈ column_names fc <-> exists row, row ∈ df_rows played_frame /\ f ∈ row)
    /\ (forall i row f,
          df_rows played_frame !! i = Some row -> f ∈ column_names fc ->
          cell_at fc i f = Some (occurrences f row))
    /\ (forall i, (i < 3)%nat -> zsum (row_at fc i) = Z.of_nat 2).
Proof.
  apply (face_counts_table played_analyzer played_store played_frame 3 2).
  - reflexivity.
  - by apply df_wfb_spec.
  - reflexivity.
  - lia.
  - lia.
Defined.

Lemma combo_and_perm_counts_witness :
  exists combos perms,
    combo_count played_analyzer played_store = Ok combos
    /\ perm_count played_analyzer played_store = Ok perms
    /\ count_sum combos = Z.of_nat 3
    /\ count_sum perms = Z.of_nat 3
    /\ NoDup (map fst combos) /\ NoDup (map fst perms)
    /\ (forall row, row ∈ df_rows played_frame ->
          series_get combos (sorted row)
          = Some (Z.of_nat (length (filter (fun r => r ≡ₚ row) (df_rows played_frame))))
          /\ series_get perms row
             = Some (Z.of_nat (length (filter (fun r => r = row) (df_rows played_frame)))))
    /\ (forall r1 r2, r1 ≡ₚ r2 -> sorted r1 = sorted r2).
Proof.
  apply (combo_and_perm_counts played_analyzer played_store played_frame 3 2).
  - reflexivity.
  - reflexivity.
  - lia.
  - lia.
Defined.


(** * Further properties *)

(** ** The constructor of a die *)

Lemma NoDup_remove_dups_id {A : Type} `{EqDecision A} (l : list A) :
  NoDup l -> remove_dups l = l.
Proof.
  induction 1 as [|x l Hx _ IH]; simpl; [reflexivity|].
  destruct (decide_rel elem_of x l); [done|]. by rewrite IH.
Qed.

Lemma append_ones_replicate (fuel k n : nat) :
  (k <= n)%nat -> (n <= k + fuel)%nat ->
  append_ones fuel (replicate k 1%float) n = replicate n 1%float.
Proof.
  revert k. induction fuel as [|fuel IH]; intros k Hk Hn; simpl.
  - by replace k with n by lia.
  - rewrite length_replicate. destruct (Nat.ltb_spec k n) as [Hlt|Hge].
    + rewrite <- replicate_cons_app. apply (IH (S k)); lia.
    + by replace k with n by lia.
Qed.

(** The constructor on an array of distinct faces, at least one. *)
Lemma Die_init_Ok (xs : list Z) (st : Store) :
  xs <> [] -> NoDup xs ->
  Die_init (NdArray xs) st
  = (Ok (mkDie xs (length (weight_frames st))),
     mkStore (weight_frames st
                ++ [mkDF (Some "Faces") xs [("Weight", replicate (length xs) 1%float)]])
             (result_frames st) (games st)).
Proof.
  intros Hne Hnd. unfold Die_init. rewrite (NoDup_remove_dups_id xs Hnd), Nat.eqb_refl.
  assert (Hw : append_ones (length xs) [1%float] (length xs)
               = replicate (length xs) 1%float).
  { apply (append_ones_replicate (length xs) 1 (length xs)); [|lia].
    destruct xs; [done|simpl; lia]. }
  rewrite Hw. unfold faces_weight_frame. rewrite length_replicate, Nat.eqb_refl.
  reflexivity.
Qed.

(** X1: the constructor refuses what is no array with [TypeError], and an
    array that is empty or repeats a face with [ValueError]; in both
    cases the store is left as it was. *)
Theorem Die_init_rejects (arg : pyobj) (st : Store) :
  (forall xs, arg = NdArray xs -> xs = [] \/ ~ NoDup xs) ->
  Die_init arg st
  = (Raise (match arg with NdArray _ => ValueError | _ => TypeError end), st).
Proof.
  intros Hbad. destruct arg as [xs| |]; try reflexivity.
  unfold Die_init. destruct (Hbad xs eq_refl) as [->|Hdup]; [reflexivity|].
  destruct (Nat.eqb_spec (length xs) (length (remove_dups xs))) as [Hlen|]; [|reflexivity].
  exfalso. by apply Hdup, remove_dups_length_NoDup.
Qed.

(** X2: for an array of distinct faces, at least one, the constructor
    succeeds: the die has these faces, its frame is a new object with the
    constructor's layout, every face has weight 1.0, no other value has a
    weight, and the frames the store held are untouched. *)
Theorem Die_init_builds (xs : list Z) (st : Store) :
  xs <> [] -> NoDup xs ->
  exists d st',
    Die_init (NdArray xs) st = (Ok d, st')
    /\ sides d = xs
    /\ die_ok st' d
    /\ weight_frames st !! die d = None
    /\ (forall f, f ∈ xs -> weight_of st' d f = Some 1%float)
    /\ (forall f, f ∉ xs -> weight_of st' d f = None)
    /\ (forall r df, weight_frames st !! r = Some df -> weight_frames st' !! r = Some df)
    /\ result_frames st' = result_frames st /\ games st' = games st.
Proof.
  intros Hne Hnd. eexists _, _. split; [by apply Die_init_Ok|]. simpl.
  split; [reflexivity|].
  split.
  { eexists. split; [by apply list_lookup_middle|]. simpl.
    by rewrite length_replicate. }
  split; [by apply lookup_ge_None|].
  unfold weight_of; simpl. rewrite list_lookup_middle by reflexivity.
  split; [|split; [|split; [|done]]].
  - intros f Hf. rewrite df_loc_weight.
    destruct (index_pos_elem_of
                (mkDF (Some "Faces") xs [("Weight", replicate (length xs) 1%float)]) f Hf)
      as [i Hi].
    rewrite Hi. apply index_pos_Some in Hi as [Hi _]. simpl in Hi.
    apply lookup_replicate_2. eapply lookup_lt_Some; eauto.
  - intros f Hf. rewrite df_loc_weight.
    destruct (index_pos _ f) as [i|] eqn:Hi; [|reflexivity].
    apply index_pos_Some in Hi as [Hi _]. simpl in Hi.
    exfalso. apply Hf. eapply list_elem_of_lookup_2; eauto.
  - intros r df Hr. by apply lookup_app_l_Some.
Qed.

(** ** Changing weights *)

Section WeightChanges.
Context {pyval : Type} (py_float : pyval -> result float).


(** A call that raises has changed nothing. *)
Lemma change_weight_Raise (d : Die) (face : Z) (w : pyval) (st st' : Store) (e : exn) :
  change_weight py_float d face w st = (Raise e, st') -> st' = st.
Proof.
  unfold change_weight. destruct (negb _); [by intros [= _ <-]|].
  destruct (py_float w) as [x|[]]; try (by intros [= _ <-]).
  destruct (x <? 0)%float; [by intros [= _ <-]|].
  destruct (deref _ _); [discriminate|by intros [= _ <-]].
Qed.

(** X3: [change_weight] checks the face first, then the weight: a value
    that is no face of the die is an [IndexError] whatever the weight; for
    a face, a weight [float] refuses (with [ValueError] or [TypeError]) is
    a [TypeError], and a negative weight a [ValueError].  The store is as
    it was after each of these, and after any call that raises. *)
Theorem change_weight_rejects (d : Die) (face : Z) (w : pyval) (st : Store) :
  (face ∉ sides d -> change_weight py_float d face w st = (Raise IndexError, st))
  /\ (face ∈ sides d ->
      py_float w = Raise ValueError \/ py_float w = Raise TypeError ->
      change_weight py_float d face w st = (Raise TypeError, st))
  /\ (face ∈ sides d ->
      forall x, py_float w = Ok x -> (x <? 0)%float = true ->
      change_weight py_float d face w st = (Raise ValueError, st))
  /\ (forall e st', change_weight py_float d face w st = (Raise e, st') -> st' = st).
Proof.
  unfold change_weight. repeat split.
  - intros Hface. by rewrite bool_decide_eq_false_2.
  - intros Hface Hfloat. rewrite bool_decide_eq_true_2 by exact Hface. simpl.
    by destruct Hfloat as [-> | ->].
  - intros Hface x Hfloat Hneg. rewrite bool_decide_eq_true_2 by exact Hface. simpl.
    by rewrite Hfloat, Hneg.
  - intros e st'. apply change_weight_Raise.
Qed.

(** The frames [change_weight] does not write to. *)
Lemma change_weight_elsewhere (d : Die) (face : Z) (w : pyval) (st st' : Store)
    (res : result unit) :
  change_weight py_float d face w st = (res, st') ->
  (forall r, r <> die d -> weight_frames st' !! r = weight_frames st !! r)
  /\ length (weight_frames st') = length (weight_frames st)
  /\ result_frames st' = result_frames st
  /\ games st' = games st.
Proof.
  unfold change_weight. destruct (negb _); [by intros [= _ <-]|].
  destruct (py_float w) as [x|[]]; try (by intros [= _ <-]).
  destruct (x <? 0)%float; [by intros [= _ <-]|].
  destruct (deref _ _) as [df|]; [|by intros [= _ <-]].
  intros [= _ <-]. unfold put_weight_frame; simpl.
  split; [|by rewrite length_insert].
  intros r Hr. by apply list_lookup_insert_ne.
Qed.

(** X4: whatever its outcome, [change_weight] writes to the frame of its
    own die only: every other frame of weights, the frames of results and
    the games are as they were, and no frame is added. *)
Theorem change_weight_frame (d : Die) (face : Z) (w : pyval) (st st' : Store)
    (res : result unit) :
  change_weight py_float d face w st = (res, st') ->
  (forall r, r <> die d -> weight_frames st' !! r = weight_frames st !! r)
  /\ length (weight_frames st') = length (weight_frames st)
  /\ result_frames st' = result_frames st
  /\ games st' = games st.
Proof.
  intros Hcall. destruct st' as [wf rf gs].
  destruct (change_weight_elsewhere d face w st _ res Hcall) as (H1 & H2 & H3 & H4).
  repeat split; assumption.
Qed.

(** The layout of a die's frame survives every call. *)
Lemma change_weight_keeps_layout (d : Die) (face : Z) (w : pyval) (st : Store) :
  die_ok st d -> die_ok (snd (change_weight py_float d face w st)) d.
Proof.
  intros Hok. destruct (change_weight py_float d face w st) as [[[]|e] st'] eqn:Hcall; simpl.
  - by eapply change_weight_ok.
  - by rewrite (change_weight_Raise _ _ _ _ _ _ Hcall).
Qed.

Lemma change_weights_keep_layout (d : Die) (calls : list (Z * pyval)) (st : Store) :
  die_ok st d -> die_ok (change_weights py_float d calls st) d.
Proof.
  revert st. induction calls as [|c calls IH]; intros st Hok; [exact Hok|].
  simpl. apply IH. by apply change_weight_keeps_layout.
Qed.


End WeightChanges.

(** ** Rolling, copies and weight changes together *)

Section RollAfterChanges.
Context {rng : Type}
        (np_random_choice : rng -> list Z -> Z -> list float -> result (list Z) * rng).
Context {pyval : Type} (py_float : pyval -> result float).

(** X7: no run of [change_weight] calls, whether they succeed or raise,
    makes a die of the constructor one that can be rolled: [roll_die]
    still ends in [KeyError], without a draw from the generator. *)
Theorem roll_die_after_changes
    (arg : pyobj) (st0 st : Store) (d : Die) (calls : list (Z * pyval))
    (roll : Z) (g : rng) :
  Die_init arg st0 = (Ok d, st) ->
  roll_die np_random_choice d roll (change_weights py_float d calls st) g
  = (Raise KeyError, g).
Proof.
  intros Hinit. apply roll_die_KeyError.
  apply change_weights_keep_layout. by eapply Die_init_ok.
Qed.

(** X8: the table [show_die] returns is a new frame equal to the die's
    own, with the one column [Weight].  It is a snapshot in both
    directions: writing to it leaves the die's frame as it was, and a
    later [change_weight] on the die leaves the returned table as it
    was. *)
Theorem show_die_snapshot (d : Die) (st : Store) :
  die_ok st d ->
  exists r st1 df,
    show_die d st = (Ok r, st1)
    /\ r <> die d
    /\ weight_frames st !! r = None
    /\ weight_frames st1 !! r = Some df
    /\ weight_frames st1 !! die d = Some df
    /\ column_names df = ["Weight"]
    /\ (forall df', weight_frames (put_weight_frame r df' st1) !! die d = Some df)
    /\ (forall face w,
          weight_frames (snd (change_weight py_float d face w st1)) !! r = Some df).
Proof.
  intros (ws & Hdf & _). unfold show_die, deref. rewrite Hdf. simpl.
  pose proof (lookup_lt_Some _ _ _ Hdf) as Hlt.
  eexists _, _, _. split; [reflexivity|]. split; [lia|].
  split; [by apply lookup_ge_None|].
  split; [by apply list_lookup_middle|].
  split; [by apply lookup_app_l_Some|].
  split; [reflexivity|]. split.
  - intros df'. simpl. rewrite list_lookup_insert_ne by lia.
    by apply lookup_app_l_Some.
  - intros face w.
    destruct (change_weight py_float d face w _) as [res st2] eqn:Hcall.
    apply change_weight_elsewhere in Hcall as (Hother & _). simpl in *.
    rewrite Hother by lia. by apply list_lookup_middle.
Qed.

End RollAfterChanges.

(** ** Games: construction and play *)

(** X10: [Game] allocates a new game that holds the dice it was given
    and no results; the games and frames of the store are as they were.
    On the new game [show] raises [ValueError] for every form, and no
    analyzer can be built. *)
Theorem Game_init_fresh (ds : list Die) (st : Store) :
  exists gr st',
    Game_init ds st = (gr, st')
    /\ games st !! gr = None
    /\ games st' !! gr = Some (mkGame ds None)
    /\ (forall g gm, games st !! g = Some gm -> games st' !! g = Some gm)
    /\ weight_frames st' = weight_frames st
    /\ result_frames st' = result_frames st
    /\ (forall form, show gr form st' = Raise ValueError)
    /\ Analyzer_init (GameObj gr) st' = Raise ValueError.
Proof.
  eexists _, _. split; [reflexivity|]. simpl.
  split; [by apply lookup_ge_None|].
  assert (Hnew : (games st ++ [mkGame ds None])%list !! length (games st)
                 = Some (mkGame ds None)) by (by apply list_lookup_middle).
  split; [exact Hnew|].
  split; [intros g gm Hg; by apply lookup_app_l_Some|].
  split; [reflexivity|]. split; [reflexivity|].
  split.
  - intros form. unfold show, deref; simpl. by rewrite Hnew.
  - unfold Analyzer_init, show, deref; simpl. by rewrite Hnew.
Qed.

Lemma roll_labels_NoDup (n_rolls : Z) : NoDup (roll_labels n_rolls).
Proof.
  unfold roll_labels.
  change (map ?f ?l) with (f <$> l).
  apply NoDup_fmap_2_strong; [|apply NoDup_seq].
  intros i j _ _ Heq. simpl in Heq. injection Heq as Heq.
  pose proof (pretty_nat_inj _ _ Heq). lia.
Qed.

Section Play.
Context {rng : Type}
        (np_random_choice : rng -> list Z -> Z -> list float -> result (list Z) * rng).

(** X11: a play that raises has stored nothing: the store, and with it
    the results of an earlier play, is as it was. *)
Theorem play_failure_keeps_state
    (gr : nat) (n_rolls : Z) (st st' : Store) (g g' : rng) (e : exn) :
  play np_random_choice gr n_rolls st g = (Raise e, st', g') ->
  st' = st.
Proof.
  unfold play. destruct (deref (games st) gr) as [gm|]; [|by intros [= _ <- _]].
  destruct (roll_all _ (dice gm) 0 n_rolls st g) as [[data|e'] g1]; [|by intros [= _ <- _]].
  destruct (pd_DataFrame data (roll_labels n_rolls)) as [df|e']; [|by intros [= _ <- _]].
  simpl. discriminate.
Qed.

(** One die that cannot be rolled ends the dict of a play. *)
Lemma roll_all_fails (ds : list Die) (i : nat) (n_rolls : Z) (st : Store) (g : rng) (d : Die) :
  d ∈ ds -> die_ok st d ->
  exists e g', roll_all np_random_choice ds i n_rolls st g = (Raise e, g').
Proof.
  intros Hin Hok. revert i g. induction ds as [|d' ds IH]; intros i g.
  - by apply elem_of_nil in Hin.
  - simpl. destruct (roll_die _ d' n_rolls st g) as [[r|e] g1] eqn:Hroll; [|by eexists _, _].
    apply elem_of_cons in Hin as [->|Hin].
    + rewrite (roll_die_KeyError np_random_choice d' n_rolls st g Hok) in Hroll.
      discriminate.
    + destruct (IH Hin (S i) g1) as (e & g' & ->). by eexists _, _.
Qed.

(** X12: a game that has a die built by the constructor among its dice
    cannot be played: [play] raises and stores nothing; when that die is
    the first one the error is the [KeyError] of [roll_die] and nothing
    was drawn from the generator. *)
Theorem play_needs_rollable_dice
    (gr : nat) (gm : Game) (n_rolls : Z) (st : Store) (g : rng) :
  games st !! gr = Some gm ->
  (forall d, d ∈ dice gm -> die_ok st d ->
     exists e g', play np_random_choice gr n_rolls st g = (Raise e, st, g'))
  /\ (forall d ds, dice gm = d :: ds -> die_ok st d ->
        play np_random_choice gr n_rolls st g = (Raise KeyError, st, g)).
Proof.
  intros Hgm. unfold play, deref. rewrite Hgm. split.
  - intros d Hin Hok.
    destruct (roll_all_fails (dice gm) 0 n_rolls st g d Hin Hok) as (e & g' & ->).
    by eexists _, _.
  - intros d ds Hdice Hok. rewrite Hdice.
    by rewrite (roll_all_KeyError np_random_choice d ds 0 n_rolls st g Hok).
Qed.

(** X13: a play that succeeds rebinds the game, with its dice, to a new
    frame: one row per round, labelled [roll_1], [roll_2], ... without a
    repeat (no row when [n_rolls] is not positive), one column per die,
    labelled [die_0], [die_1], ... in the order of the dice, every column
    as long as the index, and an index without a name.  The frames of
    weights and all other games are as they were. *)
Theorem play_builds_table (gr : nat) (n_rolls : Z) (st st' : Store) (g g' : rng) :
  play np_random_choice gr n_rolls st g = (Ok tt, st', g') ->
  exists gm r df,
    games st !! gr = Some gm
    /\ games st' !! gr = Some (mkGame (dice gm) (Some r))
    /\ result_frames st !! r = None
    /\ result_frames st' !! r = Some df
    /\ df_wf df
    /\ index_name df = None
    /\ index df = roll_labels n_rolls
    /\ NoDup (index df)
    /\ length (index df) = Z.to_nat n_rolls
    /\ column_names df = map (fun k => "die_" +:+ pretty k) (seq 0 (length (dice gm)))
    /\ weight_frames st' = weight_frames st
    /\ (forall g2, g2 <> gr -> games st' !! g2 = games st !! g2).
Proof.
  intros Hplay. apply play_Ok in Hplay as (gm & data & Hgm & Hroll & Hwf & ->).
  exists gm, (length (result_frames st)), (mkDF None (roll_labels n_rolls) data). simpl.
  split; [exact Hgm|].
  split; [apply list_lookup_insert_eq; eapply lookup_lt_Some; eauto|].
  split; [by apply lookup_ge_None|].
  split; [by apply list_lookup_middle|].
  split; [exact Hwf|]. split; [reflexivity|]. split; [reflexivity|].
  split; [apply roll_labels_NoDup|]. split; [apply roll_labels_length|].
  split; [by eapply roll_all_Ok|]. split; [reflexivity|].
  intros g2 Hne. by apply list_lookup_insert_ne.
Qed.

(** X14: a second play replaces the results: [show('wide')] then returns
    another frame, with the rows of the second play and as many columns
    as before, while the frame of the first play stays in the store as it
    was. *)
Theorem play_replaces_results
    (gr : nat) (n1 n2 : Z) (st st1 st2 : Store) (g g1 g2 : rng) :
  play np_random_choice gr n1 st g = (Ok tt, st1, g1) ->
  play np_random_choice gr n2 st1 g1 = (Ok tt, st2, g2) ->
  exists r1 r2 df1 df2,
    show gr "wide" st1 = Ok (Wide r1)
    /\ show gr "wide" st2 = Ok (Wide r2)
    /\ r1 <> r2
    /\ result_frames st1 !! r1 = Some df1
    /\ result_frames st2 !! r1 = Some df1
    /\ result_frames st2 !! r2 = Some df2
    /\ shape df1 = (Z.to_nat n1, length (columns df1))
    /\ shape df2 = (Z.to_nat n2, length (columns df1)).
Proof.
  intros Hplay1 Hplay2.
  apply play_Ok in Hplay1 as (gm & data1 & Hgm & Hroll1 & _ & ->).
  apply play_Ok in Hplay2 as (gm' & data2 & Hgm' & Hroll2 & _ & ->).
  simpl in *.
  pose proof (lookup_lt_Some _ _ _ Hgm) as Hbound.
  rewrite list_lookup_insert_eq in Hgm' by exact Hbound.
  injection Hgm' as <-. simpl in Hroll2.
  apply roll_all_Ok in Hroll1, Hroll2.
  apply (f_equal length) in Hroll1, Hroll2.
  rewrite !length_map, length_seq in Hroll1, Hroll2.
  exists (length (result_frames st)), (length (result_frames st) + 1)%nat,
         (mkDF None (roll_labels n1) data1), (mkDF None (roll_labels n2) data2).
  unfold show, deref, shape; simpl.
  rewrite list_insert_insert_eq, !list_lookup_insert_eq
    by (rewrite ?length_insert; exact Hbound).
  simpl. rewrite !roll_labels_length, length_app. simpl.
  split; [reflexivity|]. split; [reflexivity|]. split; [lia|].
  split; [by apply list_lookup_middle|].
  split; [apply lookup_app_l_Some; by apply list_lookup_middle|].
  split; [apply list_lookup_middle; rewrite length_app; simpl; lia|].
  split; [reflexivity|]. f_equal. lia.
Qed.
End Play.

(** ** Analyzers *)

(** X15: [Analyzer] refuses every argument that is no game with
    [ValueError]. *)
Theorem Analyzer_init_rejects (arg : pyobj) (st : Store) :
  (forall gr, arg <> GameObj gr) ->
  Analyzer_init arg st = Raise ValueError.
Proof.
  intros Hno. destruct arg as [xs|gr|]; try reflexivity. by destruct (Hno gr).
Qed.

Lemma jackpot_eq (a : Analyzer) (st : Store) (df : ResultFrame) :
  result_frames st !! _results a = Some df ->
  jackpot a st
  = Ok (Z.of_nat (length (filter (fun row => length (remove_dups row) = 1%nat)
                            (df_rows df)))).
Proof.
  intros Hdf. unfold jackpot, deref. rewrite Hdf. simpl. f_equal.
  rewrite (bool_sum_map (fun k => Nat.eqb k 1)).
  unfold nunique_rows. rewrite df_apply_rows_values. f_equal.
  induction (df_rows df) as [|row rows IH]; [reflexivity|].
  simpl. rewrite !filter_cons.
  destruct (decide (length (remove_dups row) = 1%nat)) as [Heq|Hne].
  - rewrite decide_True by (by apply Nat.eqb_eq). simpl. by rewrite IH.
  - rewrite decide_False by (by rewrite Nat.eqb_eq). exact IH.
Qed.

(** X16: on a played game [Analyzer] succeeds, and the table it keeps is
    the frame the game holds, not a copy of it: what a caller writes to
    the table [show('wide')] returned is what [jackpot] then counts. *)
Theorem Analyzer_shares_game_frame (gr : nat) (gm : Game) (r : nat) (st : Store) :
  games st !! gr = Some gm ->
  results gm = Some r ->
  is_Some (result_frames st !! r) ->
  exists a,
    Analyzer_init (GameObj gr) st = Ok a
    /\ game a = gr
    /\ show gr "wide" st = Ok (Wide (_results a))
    /\ forall df',
         jackpot a (put_result_frame (_results a) df' st)
         = Ok (Z.of_nat (length (filter (fun row => length (remove_dups row) = 1%nat)
                                   (df_rows df')))).
Proof.
  intros Hgm Hres [df Hdf].
  pose proof (show_wide gr gm r st Hgm Hres) as Hshow.
  exists (mkAnalyzer gr r). unfold Analyzer_init. rewrite Hshow. simpl.
  split; [reflexivity|]. split; [reflexivity|]. split; [reflexivity|].
  intros df'. apply jackpot_eq. simpl.
  apply list_lookup_insert_eq. eapply lookup_lt_Some; eauto.
Qed.

Lemma filter_all_length {A : Type} (P : A -> Prop) `{forall x, Decision (P x)} (l : list A) :
  Forall P l -> length (filter P l) = length l.
Proof.
  induction 1 as [|x l Hx _ IH]; [reflexivity|].
  rewrite filter_cons, decide_True by exact Hx. simpl. by rewrite IH.
Qed.

Lemma filter_none_length {A : Type} (P : A -> Prop) `{forall x, Decision (P x)} (l : list A) :
  Forall (fun x => ~ P x) l -> length (filter P l) = 0%nat.
Proof.
  induction 1 as [|x l Hx _ IH]; [reflexivity|].
  rewrite filter_cons, decide_False by exact Hx. exact IH.
Qed.

(** X17: [jackpot] at its ends.  It is the number of rolls when on every
    roll all dice show one face (and there is a die), and 0 when no roll
    is of that kind. *)
Theorem jackpot_extremes (a : Analyzer) (st : Store) (df : ResultFrame) :
  result_frames st !! _results a = Some df ->
  ((forall row, row ∈ df_rows df -> exists x, row <> [] /\ Forall (fun y => y = x) row) ->
   jackpot a st = Ok (Z.of_nat (length (index df))))
  /\ ((forall row, row ∈ df_rows df -> ~ exists x, row <> [] /\ Forall (fun y => y = x) row) ->
      jackpot a st = Ok 0).
Proof.
  intros Hdf. rewrite (jackpot_eq a st df Hdf).
  assert (Hnone : (forall row, row ∈ df_rows df ->
                     ~ exists x, row <> [] /\ Forall (fun y => y = x) row) ->
                  Ok (Z.of_nat (length (filter (fun row => length (remove_dups row) = 1%nat)
                                          (df_rows df)))) = Ok 0).
  { intros Hrows. rewrite filter_none_length; [reflexivity|].
    apply Forall_forall. intros row Hrow Hone.
    apply (Hrows row Hrow). by apply single_valued_row. }
  split; [|exact Hnone].
  intros Hrows. rewrite filter_all_length, df_rows_length; [reflexivity|].
  apply Forall_forall. intros row Hrow. apply single_valued_row. by apply Hrows.
Qed.

Lemma remove_dups_fmap_length {A B : Type} `{EqDecision A} `{EqDecision B}
    (f : A -> B) (l : list A) :
  (length (remove_dups (map f l)) <= length (remove_dups l))%nat.
Proof.
  rewrite <- (length_map f (remove_dups l)).
  apply submseteq_length, NoDup_submseteq; [apply NoDup_remove_dups|].
  intros y Hy. rewrite elem_of_remove_dups in Hy.
  apply list_elem_of_fmap in Hy as (x & -> & Hx).
  apply list_elem_of_fmap. exists x. split; [reflexivity|].
  by apply elem_of_remove_dups.
Qed.

Lemma value_counts_length {V : Type} `{EqDecision V} (vals : list V) :
  length (value_counts vals) = length (remove_dups vals).
Proof.
  rewrite (Permutation_length (value_counts_Permutation vals)).
  unfold tally. by rewrite length_map.
Qed.

(** X18: there are at most as many distinct combinations as distinct
    permutations, and at most as many of these as rolls; the combinations
    are exactly the sorted tuples of the permutations. *)
Theorem combos_at_most_perms
    (a : Analyzer) (st : Store) (df : ResultFrame) (n_rolls d : nat) :
  game_results st (game a) = Ok df ->
  shape df = (n_rolls, d) ->
  (0 < n_rolls)%nat -> (0 < d)%nat ->
  exists combos perms,
    combo_count a st = Ok combos
    /\ perm_count a st = Ok perms
    /\ (length combos <= length perms <= n_rolls)%nat
    /\ (forall k, k ∈ map fst combos <-> exists row, row ∈ map fst perms /\ k = sorted row).
Proof.
  intros Hres Hshape _ _. injection Hshape as <- _.
  destruct (combo_count_reads_game a st df Hres) as [Hc Hp].
  eexists _, _. split; [exact Hc|]. split; [exact Hp|].
  rewrite !value_counts_length. split.
  - split; [apply remove_dups_fmap_length|].
    rewrite <- df_rows_length. apply remove_dups_length_le.
  - intros k. rewrite value_counts_key. split.
    + intros Hk. apply list_elem_of_fmap in Hk as (row & -> & Hrow).
      exists row. split; [by rewrite value_counts_key|reflexivity].
    + intros (row & Hrow & ->). rewrite value_counts_key in Hrow.
      apply list_elem_of_fmap. exists row. split; [reflexivity|exact Hrow].
Qed.

Section Descending.
Context {V : Type} `{EqDecision V}.

Lemma insert_desc_sorted (x : V * Z) (l : list (V * Z)) :
  StronglySorted (fun e1 e2 => snd e2 <= snd e1) l ->
  StronglySorted (fun e1 e2 => snd e2 <= snd e1) (insert_desc x l).
Proof.
  induction 1 as [|y l Hsorted IH Hy]; simpl.
  - repeat constructor.
  - destruct (Z.leb_spec (snd y) (snd x)) as [Hle|Hgt].
    + constructor; [by constructor|].
      constructor; [exact Hle|].
      eapply Forall_impl; [exact Hy|]. simpl. intros z Hz. lia.
    + constructor; [exact IH|].
      rewrite insert_desc_Permutation. constructor; [lia|exact Hy].
Qed.

Lemma value_counts_sorted (vals : list V) :
  StronglySorted (fun e1 e2 => snd e2 <= snd e1) (value_counts vals).
Proof.
  unfold value_counts, sort_desc. induction (tally vals) as [|x l IH]; simpl.
  - constructor.
  - by apply insert_desc_sorted.
Qed.

Lemma value_counts_positive (vals : list V) :
  Forall (fun e => 1 <= snd e) (value_counts vals).
Proof.
  rewrite value_counts_Permutation. unfold tally.
  apply Forall_forall. intros e He.
  apply list_elem_of_fmap in He as (v & -> & Hv). simpl.
  rewrite elem_of_remove_dups in Hv.
  assert (Hin : v ∈ filter (fun x => x = v) vals) by (by apply list_elem_of_filter).
  destruct (filter (fun x => x = v) vals); [by apply elem_of_nil in Hin|].
  simpl. lia.
Qed.
End Descending.

(** X19: [combo_count] and [perm_count] list their keys by decreasing
    count, the most frequent first, and every count is at least 1. *)
Theorem counts_descending
    (a : Analyzer) (st : Store) (df : ResultFrame) (n_rolls d : nat) :
  game_results st (game a) = Ok df ->
  shape df = (n_rolls, d) ->
  (0 < n_rolls)%nat -> (0 < d)%nat ->
  exists combos perms,
    combo_count a st = Ok combos
    /\ perm_count a st = Ok perms
    /\ StronglySorted (fun e1 e2 => snd e2 <= snd e1) combos
    /\ StronglySorted (fun e1 e2 => snd e2 <= snd e1) perms
    /\ Forall (fun e => 1 <= snd e) combos
    /\ Forall (fun e => 1 <= snd e) perms.
Proof.
  intros Hres _ _ _. destruct (combo_count_reads_game a st df Hres) as [Hc Hp].
  eexists _, _. split; [exact Hc|]. split; [exact Hp|].
  split; [apply value_counts_sorted|]. split; [apply value_counts_sorted|].
  split; apply value_counts_positive.
Qed.

Lemma filter_length_all {A : Type} (P : A -> Prop) `{forall x, Decision (P x)} (l : list A) :
  length (filter P l) = length l -> Forall P l.
Proof.
  induction l as [|x l IH]; intros Hlen; [constructor|].
  rewrite filter_cons in Hlen. destruct (decide (P x)) as [Hx|Hx]; simpl in Hlen.
  - constructor; [exact Hx|]. apply IH. lia.
  - pose proof (length_filter P l). lia.
Qed.

(** The cells of the table of [face_counts]. *)
Lemma face_counts_cells (a : Analyzer) (st : Store) (df : ResultFrame) :
  result_frames st !! _results a = Some df ->
  exists fc,
    face_counts a st = Ok fc
    /\ (forall f, f ∈ column_names fc <-> exists row, row ∈ df_rows df /\ f ∈ row)
    /\ (forall i row f,
          df_rows df !! i = Some row -> f ∈ column_names fc ->
          cell_at fc i f = Some (occurrences f row)).
Proof.
  intros Hdf. rewrite (face_counts_eq a st df Hdf).
  set (faces := union_labels (map (fun row => map fst (value_counts row)) (df_rows df))).
  destruct (union_labels_spec (map (fun row => map fst (value_counts row)) (df_rows df)))
    as [_ Hmem].
  { apply Forall_forall. intros k Hk.
    apply list_elem_of_fmap in Hk as (row & -> & _). apply value_counts_NoDup. }
  fold faces in Hmem.
  assert (Hcols : column_names
                    (mkDF None (index df)
                       (map (fun f => (f, map (occurrences f) (df_rows df))) faces)
                     : DataFrame string Z Z) = faces).
  { unfold column_names; simpl. rewrite map_map. apply map_id. }
  eexists. split; [reflexivity|]. rewrite Hcols. split.
  - intros f. rewrite Hmem. split.
    + intros (k & Hk & Hf). apply list_elem_of_fmap in Hk as (row & -> & Hrow).
      exists row. split; [exact Hrow|]. by rewrite <- value_counts_key.
    + intros (row & Hrow & Hf). exists (map fst (value_counts row)).
      split; [|by rewrite value_counts_key].
      apply list_elem_of_fmap. exists row. split; [reflexivity|exact Hrow].
  - intros i row f Hrow Hf. unfold cell_at.
    rewrite (assembled_getitem (index df) (fun f => map (occurrences f) (df_rows df))) by exact Hf.
    change (map (occurrences f) (df_rows df)) with (occurrences f <$> df_rows df).
    by rewrite list_lookup_fmap, Hrow.
Qed.

(** X21: [face_counts] shows the jackpots: with at least one die, a roll
    has a single distinct face (it counts for [jackpot]) exactly when
    some cell of its row in the table of [face_counts] is the number of
    dice. *)
Theorem jackpot_row_has_full_cell
    (a : Analyzer) (st : Store) (df : ResultFrame) (n_rolls d : nat) :
  result_frames st !! _results a = Some df ->
  df_wf df ->
  shape df = (n_rolls, d) ->
  (0 < n_rolls)%nat -> (0 < d)%nat ->
  exists fc,
    face_counts a st = Ok fc
    /\ forall i row,
         df_rows df !! i = Some row ->
         (length (remove_dups row) = 1%nat
          <-> exists f, f ∈ column_names fc /\ cell_at fc i f = Some (Z.of_nat d)).
Proof.
  intros Hdf Hwf Hshape _ Hd. injection Hshape as Hn Hcols.
  destruct (face_counts_cells a st df Hdf) as (fc & Hfc & Hmem & Hcell).
  exists fc. split; [exact Hfc|]. intros i row Hrow.
  assert (Hi : (i < length (index df))%nat).
  { rewrite <- df_rows_length. eapply lookup_lt_Some; eauto. }
  assert (Hlen : length row = d).
  { rewrite df_rows_lookup in Hrow by exact Hi. injection Hrow as <-.
    rewrite row_at_length by assumption. exact Hcols. }
  assert (Hin : row ∈ df_rows df) by (eapply list_elem_of_lookup_2; eauto).
  rewrite single_valued_row. split.
  - intros (x & Hne & Hall). exists x.
    assert (Hx : x ∈ row).
    { destruct row as [|y row]; [done|].
      apply Forall_cons in Hall as [-> _]. left. }
    assert (Hcol : x ∈ column_names fc) by (apply Hmem; eauto).
    split; [exact Hcol|]. rewrite (Hcell i row x Hrow Hcol).
    unfold occurrences. by rewrite filter_all_length, Hlen.
  - intros (f & Hcol & Hfull). rewrite (Hcell i row f Hrow Hcol) in Hfull.
    injection Hfull as Hfull. unfold occurrences in Hfull.
    apply Nat2Z.inj in Hfull. exists f. split.
    + intros ->. simpl in Hlen. lia.
    + apply (filter_length_all (fun y => y = f)). by rewrite Hfull, Hlen.
Qed.

(** ** The further properties at work on the examples *)

Lemma test_die_ok : die_ok test_die_store test_die.
Proof. apply (Die_init_ok (NdArray [1; 2; 3; 4; 5; 6]) empty_store). reflexivity. Qed.


Lemma Die_init_rejects_witness :
  Die_init (NdArray [1; 1]) empty_store = (Raise ValueError, empty_store).
Proof.
  apply (Die_init_rejects (NdArray [1; 1]) empty_store).
  intros xs [= <-]. right. intros Hnd.
  apply NoDup_cons in Hnd as [Hin _]. apply Hin. left.
Defined.

Lemma Die_init_builds_witness :
  exists d st',
    Die_init (NdArray [1; 2; 3]) empty_store = (Ok d, st')
    /\ sides d = [1; 2; 3]
    /\ weight_of st' d 2 = Some 1%float.
Proof.
  destruct (Die_init_builds [1; 2; 3] empty_store) as (d & st' & H1 & H2 & _ & _ & H5 & _).
  - discriminate.
  - apply (bool_decide_unpack (NoDup [1; 2; 3])). vm_compute. exact I.
  - exists d, st'. split; [exact H1|]. split; [exact H2|].
    apply H5. right. left.
Defined.

Lemma change_weight_frame_witness :
  result_frames (snd (change_weight sample_float test_die 3 (Number 2%float) test_die_store))
  = result_frames test_die_store
  /\ games (snd (change_weight sample_float test_die 3 (Number 2%float) test_die_store))
     = games test_die_store.
Proof.
  destruct (change_weight_frame sample_float test_die 3 (Number 2%float) test_die_store
              (snd (change_weight sample_float test_die 3 (Number 2%float) test_die_store))
              (Ok tt) eq_refl) as (_ & _ & H3 & H4).
  split; assumption.
Defined.



Lemma roll_die_after_changes_witness :
  roll_die canned_choice test_die 5
    (change_weights sample_float test_die
       [(3, Number 2%float); (9, Number 1%float); (4, Word)] test_die_store)
    [[1; 1; 1; 1; 1]]
  = (Raise KeyError, [[1; 1; 1; 1; 1]]).
Proof.
  apply (roll_die_after_changes canned_choice sample_float
           (NdArray [1; 2; 3; 4; 5; 6]) empty_store test_die_store test_die).
  reflexivity.
Defined.

Lemma show_die_snapshot_witness :
  exists r st1 df,
    show_die test_die test_die_store = (Ok r, st1)
    /\ r <> die test_die
    /\ weight_frames st1 !! r = Some df
    /\ column_names df = ["Weight"].
Proof.
  destruct (show_die_snapshot sample_float test_die test_die_store test_die_ok)
    as (r & st1 & df & H1 & H2 & _ & H4 & _ & H6 & _).
  exists r, st1, df. auto.
Defined.


Lemma play_failure_keeps_state_witness :
  snd (fst (play canned_choice 0 5 test_game_store [[1; 1; 1; 1; 1]])) = test_game_store.
Proof.
  apply (play_failure_keeps_state canned_choice 0 5 test_game_store _
           [[1; 1; 1; 1; 1]] [[1; 1; 1; 1; 1]] KeyError).
  reflexivity.
Defined.

Lemma play_needs_rollable_dice_witness :
  play canned_choice 0 5 test_game_store [[1; 1; 1; 1; 1]]
  = (Raise KeyError, test_game_store, [[1; 1; 1; 1; 1]]).
Proof.
  destruct (play_needs_rollable_dice canned_choice 0 (mkGame [test_die] None) 5
              test_game_store [[1; 1; 1; 1; 1]] eq_refl) as [_ Hfirst].
  apply (Hfirst test_die []); [reflexivity|exact test_die_ok].
Defined.

Lemma play_builds_table_witness :
  exists r df,
    result_frames played_store !! r = Some df
    /\ index df = roll_labels 3
    /\ NoDup (index df)
    /\ column_names df = map (fun k => "die_" +:+ pretty k) (seq 0 2).
Proof.
  destruct (play_builds_table canned_choice 0 3 (snd (Game_init two_dice two_dice_store))
              played_store [[1; 2; 3]; [2; 1; 3]] [] eq_refl)
    as (gm & r & df & Hgm & _ & _ & Hdf & _ & _ & Hidx & Hnd & _ & Hcols & _).
  injection Hgm as <-.
  exists r, df. auto.
Defined.

Lemma play_replaces_results_witness :
  exists r1 r2 df1,
    show 0 "wide" played_store = Ok (Wide r1)
    /\ r1 <> r2
    /\ result_frames played_store !! r1 = Some df1
    /\ result_frames (snd (fst (play canned_choice 0 1 played_store [[3]; [3]]))) !! r1
       = Some df1.
Proof.
  destruct (play_replaces_results canned_choice 0 3 1
              (snd (Game_init two_dice two_dice_store)) played_store
              (snd (fst (play canned_choice 0 1 played_store [[3]; [3]])))
              [[1; 2; 3]; [2; 1; 3]; [3]; [3]] [[3]; [3]] [] eq_refl eq_refl)
    as (r1 & r2 & df1 & df2 & H1 & _ & H3 & H4 & H5 & _).
  exists r1, r2, df1. auto.
Defined.

Lemma Analyzer_init_rejects_witness :
  Analyzer_init (NdArray [1; 2; 3]) played_store = Raise ValueError.
Proof.
  apply (Analyzer_init_rejects (NdArray [1; 2; 3]) played_store).
  intros gr. discriminate.
Defined.

Lemma Analyzer_shares_game_frame_witness :
  exists a,
    Analyzer_init (GameObj 0) played_store = Ok a
    /\ game a = 0%nat
    /\ show 0 "wide" played_store = Ok (Wide (_results a)).
Proof.
  destruct (Analyzer_shares_game_frame 0 (mkGame two_dice (Some 0%nat)) 0 played_store
              eq_refl eq_refl) as (a & H1 & H2 & H3 & _).
  - by exists played_frame.
  - exists a. auto.
Defined.

Lemma jackpot_extremes_witness :
  ((forall row, row ∈ df_rows played_frame ->
      exists x, row <> [] /\ Forall (fun y => y = x) row) ->
   jackpot played_analyzer played_store = Ok (Z.of_nat (length (index played_frame))))
  /\ ((forall row, row ∈ df_rows played_frame ->
         ~ exists x, row <> [] /\ Forall (fun y => y = x) row) ->
      jackpot played_analyzer played_store = Ok 0).
Proof.
  apply (jackpot_extremes played_analyzer played_store played_frame). reflexivity.
Defined.

Lemma combos_at_most_perms_witness :
  exists combos perms,
    combo_count played_analyzer played_store = Ok combos
    /\ perm_count played_analyzer played_store = Ok perms
    /\ (length combos <= length perms <= 3)%nat.
Proof.
  destruct (combos_at_most_perms played_analyzer played_store played_frame 3 2 eq_refl eq_refl)
    as (combos & perms & H1 & H2 & H3 & _); [lia|lia|].
  exists combos, perms. auto.
Defined.

Lemma counts_descending_witness :
  exists combos,
    combo_count played_analyzer played_store = Ok combos
    /\ StronglySorted (fun e1 e2 => snd e2 <= snd e1) combos
    /\ Forall (fun e => 1 <= snd e) combos.
Proof.
  destruct (counts_descending played_analyzer played_store played_frame 3 2 eq_refl eq_refl)
    as (combos & perms & H1 & _ & H3 & _ & H5 & _); [lia|lia|].
  exists combos. auto.
Defined.

Lemma jackpot_after_play_witness :
  jackpot played_analyzer (snd (fst (play canned_choice 0 1 played_store [[3]; [3]])))
  = jackpot played_analyzer played_store
  /\ face_counts played_analyzer (snd (fst (play canned_choice 0 1 played_store [[3]; [3]])))
     = face_counts played_analyzer played_store.
Proof.
  apply (jackpot_after_play canned_choice played_analyzer 0 1 played_store _ [[3]; [3]] []).
  - by exists played_frame.
  - reflexivity.
Defined.

Lemma jackpot_row_has_full_cell_witness :
  exists fc,
    face_counts played_analyzer played_store = Ok fc
    /\ forall i row,
         df_rows played_frame !! i = Some row ->
         (length (remove_dups row) = 1%nat
          <-> exists f, f ∈ column_names fc /\ cell_at fc i f = Some (Z.of_nat 2)).
Proof.
  apply (jackpot_row_has_full_cell played_analyzer played_store played_frame 3 2).
  - reflexivity.
  - by apply df_wfb_spec.
  - reflexivity.
  - lia.
  - lia.
Defined.
